(** * pypesa: the [Mpesa] client of [pypesa/__init__.py]

    A shallow embedding of the class [Mpesa] and the properties of its
    construction, header building, session handling and transaction
    dispatch.

    The client talks to three things outside the program: the file system
    (the listing of the working directory and the key store), the RSA
    library (whose PKCS#1 v1.5 padding is randomised) and the HTTP
    transport.  They are gathered in a record [World] of oracles.  The RSA
    and HTTP oracles take the number of external calls made so far, so the
    same request may be answered differently each time it is made.  Every
    external call is appended to a trace.  Output written with [print] is
    not modelled. *)

From Stdlib Require Import Ascii String.
From stdpp Require Import base option list strings gmap.

Open Scope string_scope.
Open Scope list_scope.

Set Warnings "-register-all".

(** ** Python values *)

(** The values [json.load] and [Response.json] produce.  A float is kept as
    its IEEE 754 binary64 bit pattern. *)
Inductive pyval : Type :=
  | PNone
  | PBool (b : bool)
  | PInt (n : Z)
  | PFloat (bits : Z)
  | PStr (s : string)
  | PList (l : list pyval)
  | PDict (d : gmap string pyval).

(** [bool(v)]: [None], [False], zero, and the empty string, list and dict
    are false. *)
Definition truthy (v : pyval) : bool :=
  match v with
  | PNone => false
  | PBool b => b
  | PInt n => negb (n =? 0)%Z
  | PFloat bits => negb (Z.land bits (2 ^ 63 - 1) =? 0)%Z
  | PStr s => negb (String.eqb s "")
  | PList l => match l with [] => false | _ => true end
  | PDict d => negb (bool_decide (d = ∅))
  end.

(** [bool(s)] for an [Optional[str]]. *)
Definition truthy_str (s : option string) : bool :=
  match s with
  | None => false
  | Some s => negb (String.eqb s "")
  end.

(** [isinstance(v, str)] *)
Definition is_str (v : pyval) : bool :=
  match v with PStr _ => true | _ => false end.

(** [v == s] for a string literal [s]. *)
Definition eq_str (v : pyval) (s : string) : bool :=
  match v with PStr s' => String.eqb s' s | _ => false end.

(** ** Exceptions *)

(** The exception classes that the client raises or lets through.
    [AuthenticationError], [LoadingKeyError] and [ConnectionError] are the
    classes of [mpesa_exceptions]; [RequestsConnectTimeout] and
    [RequestsConnectionError] are [requests.ConnectTimeout] and
    [requests.ConnectionError]; [RequestsError] is any other exception of
    the transport; [JSONDecodeError] is raised by [Response.json] and
    [json.load]; [OSError] is any failure of [open] other than
    [FileNotFoundError]; [ValueError] is any failure of the RSA library.
    The argument of [KeyError] is the set of keys its message names. *)
Inductive exn : Type :=
  | AuthenticationError
  | LoadingKeyError
  | ConnectionError
  | FileNotFoundError
  | KeyError (keys : gset string)
  | TypeError
  | AttributeError
  | ValueError
  | OSError
  | RecursionError
  | JSONDecodeError
  | RequestsConnectTimeout
  | RequestsConnectionError
  | RequestsError.

Inductive result (A : Type) : Type :=
  | Ok (a : A)
  | Err (e : exn).
Arguments Ok {A} a.
Arguments Err {A} e.

(** ** The outside world *)

(** [service_urls.production] and [service_urls.sandbox] are objects with
    one attribute per endpoint. *)
Record UrlSet : Type := {
  session_id : string;
  single_stage_c2b : string;
  single_stage_b2c : string;
  single_stage_b2b : string;
  payment_reversal_url : string;
  transaction_status : string
}.

(** The module [service_urls] is imported by the client but its two tables
    are not part of this file: they are taken as they come. *)
Record ServiceUrls : Type := {
  production : UrlSet;
  sandbox : UrlSet
}.

(** What [open(name, "r")] followed by [json.load] does: one of the two
    raises, or the content parses to a value. *)
Inductive load_outcome : Type :=
  | LoadRaises (e : exn)
  | Loaded (v : pyval).

(** What a request does: the transport raises, or a response arrives whose
    [json()] either parses to a value or raises. *)
Inductive http_outcome : Type :=
  | Raises (e : exn)
  | Responds (body : option pyval).

Record World : Type := {
  service_urls : ServiceUrls;
  listdir : list string;
  open_json : string → load_outcome;
  rsa : nat → string → string → option string;
  http_get : nat → string → gmap string string → http_outcome;
  http_post : nat → string → gmap string pyval → gmap string string → http_outcome
}.

Inductive event : Type :=
  | GET (url : string) (headers : gmap string string)
  | POST (url : string) (body : gmap string pyval) (headers : gmap string string)
  | Encrypt (public_key plaintext : string).

Definition is_post (ev : event) : bool :=
  match ev with POST _ _ _ => true | _ => false end.

Definition event_headers (ev : event) : option (gmap string string) :=
  match ev with
  | GET _ h | POST _ _ h => Some h
  | Encrypt _ _ => None
  end.

(** ** The client object *)

(** The attributes of an [Mpesa] instance.  [auth_keys] is only assigned by
    the property [authenticated]; before that the attribute does not
    exist. *)
Record Mpesa : Type := {
  auth_path : string;
  auth_keys : option pyval;
  encrypted_api_key : option string;
  origin_ip : string;
  urls : UrlSet
}.

Record state : Type := {
  self : Mpesa;
  ticks : nat;
  trace : list event
}.

(** ** Computations *)

Definition M (A : Type) : Type := state → result A * state.

Definition raise {A} (e : exn) : M A := λ st, (Err e, st).

#[global] Instance M_ret : MRet M := λ A a st, (Ok a, st).

#[global] Instance M_bind : MBind M := λ A B f m st,
  match m st with
  | (Ok a, st') => f a st'
  | (Err e, st') => (Err e, st')
  end.

(** [try: m  except ...: h e] *)
Definition try_except {A} (m : M A) (h : exn → M A) : M A :=
  λ st, match m st with
        | (Ok a, st') => (Ok a, st')
        | (Err e, st') => h e st'
        end.

Definition get_self {A} (f : Mpesa → A) : M A := λ st, (Ok (f (self st)), st).

Definition set_self (f : Mpesa → Mpesa) : M unit :=
  λ st, (Ok tt, {| self := f (self st); ticks := ticks st; trace := trace st |}).

(** An external call: logged, and the clock of the world advances. *)
Definition emit (ev : event) : M nat :=
  λ st, (Ok (ticks st),
         {| self := self st; ticks := S (ticks st); trace := trace st ++ [ev] |}).

(** [v[key]] *)
Definition subscript (v : pyval) (key : string) : M pyval :=
  match v with
  | PDict d =>
      match d !! key with
      | Some x => mret x
      | None => raise (KeyError {[key]})
      end
  | _ => raise TypeError
  end.

(** ** The methods of [Mpesa] *)

Definition set_auth_keys (v : pyval) (c : Mpesa) : Mpesa :=
  {| auth_path := auth_path c; auth_keys := Some v;
     encrypted_api_key := encrypted_api_key c;
     origin_ip := origin_ip c; urls := urls c |}.

Definition set_encrypted_api_key (k : string) (c : Mpesa) : Mpesa :=
  {| auth_path := auth_path c; auth_keys := auth_keys c;
     encrypted_api_key := Some k;
     origin_ip := origin_ip c; urls := urls c |}.

Definition set_origin_ip (s : string) (c : Mpesa) : Mpesa :=
  {| auth_path := auth_path c; auth_keys := auth_keys c;
     encrypted_api_key := encrypted_api_key c;
     origin_ip := s; urls := urls c |}.

(** The dict literal returned by [default_headers]. *)
Definition headers_dict (auth_key origin : string) : gmap string string :=
  {[ "Content-Type" := "application/json";
     "Authorization" := "Bearer " +:+ auth_key;
     "Host" := "openapi.m-pesa.com";
     "Origin" := origin ]}.

(** ** The five transaction kinds *)

Inductive kind : Type := C2B | B2C | B2B | Reversal | Status.

(** The set literal [required_fields] of each transaction method, in the
    order [customer_to_bussiness], [bussiness_to_customer],
    [bussiness_to_bussiness], [payment_reversal],
    [query_transaction_status]. *)
Definition required_fields (k : kind) : gset string :=
  match k with
  | C2B =>
      {[ "input_Amount";
         "input_Country";
         "input_Currency";
         "input_CustomerMSISDN";
         "input_ServiceProviderCode";
         "input_ThirdPartyConversationID";
         "input_TransactionReference";
         "input_PurchasedItemsDesc" ]}
  | B2C =>
      {[ "input_Amount";
         "input_Country";
         "input_Currency";
         "input_CustomerMSISDN";
         "input_ServiceProviderCode";
         "input_ThirdPartyConversationID";
         "input_TransactionReference";
         "input_PaymentItemsDesc" ]}
  | B2B =>
      {[ "input_Amount";
         "input_Country";
         "input_Currency";
         "input_PrimaryPartyCode";
         "input_ReceiverPartyCode";
         "input_ThirdPartyConversationID";
         "input_TransactionReference";
         "input_PurchasedItemsDesc" ]}
  | Reversal =>
      {[ "input_Country";
         "input_ReversalAmount";
         "input_ServiceProviderCode";
         "input_ThirdPartyConversationID";
         "input_TransactionID" ]}
  | Status =>
      {[ "input_Country";
         "input_QueryReference";
         "input_ServiceProviderCode";
         "input_ThirdPartyConversationID" ]}
  end.

(** [verify_query] is a static method: it reads neither the object nor the
    world. *)
Definition verify_query (transaction_query : gmap string pyval)
    (required_fields : gset string) : M bool :=
  let query_keys := dom transaction_query in
  let missing_keys := required_fields ∖ query_keys in
  if bool_decide (missing_keys = ∅) then mret true
  else raise (KeyError missing_keys).

Section Client.
Context (w : World).

(** [__load_keys] *)
Definition load_keys (keys_filename : string) : M pyval :=
  try_except
    (match open_json w keys_filename with
     | Loaded v => mret v
     | LoadRaises e => raise e
     end)
    (λ e, match e with
          | FileNotFoundError => raise FileNotFoundError
          | _ => raise LoadingKeyError
          end).

(** The four library calls that end [__generate_encrypted_key]:
    [b64decode], [RSA.importKey], [rsa_cipher.new] and
    [encrypt(raw_key.encode())], then [b64encode(...).decode]. *)
Definition rsa_encrypt (pub_key raw_key : pyval) : M string :=
  match pub_key, raw_key with
  | PStr p, PStr r =>
      t ← emit (Encrypt p r);
      match rsa w t p r with
      | Some c => mret c
      | None => raise ValueError
      end
  | PStr _, _ => raise AttributeError
  | _, _ => raise TypeError
  end.

(** [requests.get(url, headers=headers)] *)
Definition requests_get (url : string) (headers : gmap string string)
    : M (option pyval) :=
  t ← emit (GET url headers);
  match http_get w t url headers with
  | Raises e => raise e
  | Responds body => mret body
  end.

(** [requests.post(url, json=body, headers=headers, verify=True)] *)
Definition requests_post (url : string) (body : gmap string pyval)
    (headers : gmap string string) : M (option pyval) :=
  t ← emit (POST url body headers);
  match http_post w t url body headers with
  | Raises e => raise e
  | Responds body => mret body
  end.

(** [response.json()] *)
Definition response_json (body : option pyval) : M pyval :=
  match body with
  | Some v => mret v
  | None => raise JSONDecodeError
  end.

(** The property [origin_address] and its setter. *)
Definition origin_address : M string := get_self origin_ip.

Definition set_origin_address (ip_address : pyval) : M unit :=
  match ip_address with
  | PStr s => set_self (set_origin_ip s)
  | _ => raise TypeError
  end.

(** [default_headers], [__generate_encrypted_key] and [get_session_id]
    call each other.  [depth] is the number of frames left on the
    interpreter's stack: a call with none left raises [RecursionError],
    as Python does. *)
Fixpoint default_headers (depth : nat) (auth_key : option string)
    {struct depth} : M (gmap string string) :=
  match depth with
  | 0 => raise RecursionError
  | S depth =>
      auth_key ← (if truthy_str auth_key then mret (default "" auth_key)
                  else generate_encrypted_key depth true);
      origin ← origin_address;
      mret (headers_dict auth_key origin)
  end
with generate_encrypted_key (depth : nat) (session : bool)
    {struct depth} : M string :=
  match depth with
  | 0 => raise RecursionError
  | S depth =>
      try_except
        (keys ← get_self auth_keys;
         keys ← from_option mret (raise AttributeError) keys;
         pub_key ← subscript keys "public_key";
         raw_key ← subscript keys "api_key";
         raw_key ← (if session then get_session_id depth else mret raw_key);
         rsa_encrypt pub_key raw_key)
        (λ _, raise AuthenticationError)
  end
with get_session_id (depth : nat) {struct depth} : M pyval :=
  match depth with
  | 0 => raise RecursionError
  | S depth =>
      try_except
        (key ← get_self encrypted_api_key;
         headers ← default_headers depth key;
         url ← get_self (session_id ∘ urls);
         response ← requests_get url headers;
         response ← response_json response;
         session_id ← subscript response "output_SessionID";
         response_code ← subscript response "output_ResponseCode";
         description ← subscript response "output_ResponseDesc";
         if eq_str response_code "INS-989" then raise AuthenticationError
         else mret session_id)
        (λ _, raise AuthenticationError)
  end.

(** The property [authenticated]. *)
Definition authenticated (depth : nat) : M bool :=
  path ← get_self auth_path;
  if bool_decide (path ∈ listdir w) then
    keys ← load_keys path;
    set_self (set_auth_keys keys);;
    if truthy keys then
      key ← generate_encrypted_key depth false;
      set_self (set_encrypted_api_key key);;
      if truthy_str (Some key) then mret true else mret false
    else mret false
  else raise FileNotFoundError.

(** [__init__]: the attributes assigned before [authenticated] is read,
    and the rest of the body. *)
Definition init_attributes (auth_path environment : string) : Mpesa :=
  {| auth_path := auth_path;
     auth_keys := None;
     encrypted_api_key := None;
     origin_ip := "*";
     urls := if bool_decide (environment = "production")
             then production (service_urls w)
             else sandbox (service_urls w) |}.

Definition init (depth : nat) : M unit :=
  ok ← authenticated depth;
  if (ok : bool) then mret tt else raise AuthenticationError.

(** [Mpesa(auth_path, environment)]: the caller gets the object when
    [__init__] returns, and only the exception when it raises. *)
Definition Mpesa_new (auth_path environment : string) (depth : nat)
    (t : nat) (tr : list event) : result Mpesa * (nat * list event) :=
  let st := {| self := init_attributes auth_path environment;
               ticks := t; trace := tr |} in
  match init depth st with
  | (Ok _, st') => (Ok (self st'), (ticks st', trace st'))
  | (Err e, st') => (Err e, (ticks st', trace st'))
  end.

(** The [try] block shared, word for word, by the five transaction
    methods: [requests.post(url, json=transaction_query,
    headers=self.default_headers(), verify=True).json()], where the two
    connection errors of the transport become [ConnectionError].  The
    arguments are evaluated in order, so the headers are built before the
    request is sent. *)
Definition post_query (endpoint : UrlSet → string) (depth : nat)
    (transaction_query : gmap string pyval) : M pyval :=
  try_except
    (url ← get_self (endpoint ∘ urls);
     headers ← default_headers depth (Some "");
     response ← requests_post url transaction_query headers;
     response_json response)
    (λ e, match e with
          | RequestsConnectTimeout | RequestsConnectionError =>
              raise ConnectionError
          | _ => raise e
          end).

Definition customer_to_bussiness (depth : nat)
    (transaction_query : gmap string pyval) : M pyval :=
  let required_fields := required_fields C2B in
  verify_query transaction_query required_fields;;
  post_query single_stage_c2b depth transaction_query.

Definition bussiness_to_customer (depth : nat)
    (transaction_query : gmap string pyval) : M pyval :=
  let required_fields := required_fields B2C in
  verify_query transaction_query required_fields;;
  post_query single_stage_b2c depth transaction_query.

Definition bussiness_to_bussiness (depth : nat)
    (transaction_query : gmap string pyval) : M pyval :=
  let required_fields := required_fields B2B in
  verify_query transaction_query required_fields;;
  post_query single_stage_b2b depth transaction_query.

Definition payment_reversal (depth : nat)
    (transaction_query : gmap string pyval) : M pyval :=
  let required_fields := required_fields Reversal in
  verify_query transaction_query required_fields;;
  post_query payment_reversal_url depth transaction_query.

Definition query_transaction_status (depth : nat)
    (transaction_query : gmap string pyval) : M pyval :=
  let required_fields := required_fields Status in
  verify_query transaction_query required_fields;;
  post_query transaction_status depth transaction_query.
End Client.

(** The method of each kind, and the endpoint it posts to. *)
Definition dispatch (w : World) (k : kind) : nat → gmap string pyval → M pyval :=
  match k with
  | C2B => customer_to_bussiness w
  | B2C => bussiness_to_customer w
  | B2B => bussiness_to_bussiness w
  | Reversal => payment_reversal w
  | Status => query_transaction_status w
  end.

Definition endpoint (k : kind) : UrlSet → string :=
  match k with
  | C2B => single_stage_c2b
  | B2C => single_stage_b2c
  | B2B => single_stage_b2b
  | Reversal => payment_reversal_url
  | Status => transaction_status
  end.

(** ** Running a method without touching the object *)

(** [advance st ext]: the state after the external calls [ext], the object
    being as it was. *)
Definition advance (st : state) (ext : list event) : state :=
  {| self := self st;
     ticks := ticks st + length ext;
     trace := trace st ++ ext |}.

(** [runs c m Ψ]: started on the object [c], the computation [m] leaves
    the object as it is, makes the external calls [ext] and ends with [r],
    for some [ext] and [r] that satisfy [Ψ]. *)
Definition runs {A} (c : Mpesa) (m : M A)
    (Ψ : list event → result A → Prop) : Prop :=
  ∀ st, self st = c → ∃ ext r, m st = (r, advance st ext) ∧ Ψ ext r.

(** ** The session methods *)

Arguments default_headers : simpl never.
Arguments generate_encrypted_key : simpl never.
Arguments get_session_id : simpl never.

(** The external calls the session methods may make on the object [c]: an
    encryption, or a GET to the session endpoint whose headers are those of
    [headers_dict], built from the stored encrypted API key when there is
    one.  They never POST. *)
Definition session_event (c : Mpesa) (ev : event) : Prop :=
  match ev with
  | GET url h =>
      url = session_id (urls c) ∧
      ∃ k, h = headers_dict k (origin_ip c) ∧
           (truthy_str (encrypted_api_key c) = true →
            encrypted_api_key c = Some k)
  | POST _ _ _ => False
  | Encrypt _ _ => True
  end.

Definition headers_post (c : Mpesa) (auth_key : option string)
    (ext : list event) (r : result (gmap string string)) : Prop :=
  Forall (session_event c) ext ∧
  ∀ h, r = Ok h →
    ∃ k, h = headers_dict k (origin_ip c) ∧
         (truthy_str auth_key = true → auth_key = Some k ∧ ext = []).

(** What a transaction method may send on the object [c]: the events of
    the session methods, then at most one POST, to the endpoint of the
    kind, whose body is the query and whose headers are those of
    [headers_dict]; a method that returns has sent it. *)
Definition dispatch_post (c : Mpesa) (k : kind) (q : gmap string pyval)
    (ext : list event) (r : result pyval) : Prop :=
  ∃ ext1 ext2,
    ext = ext1 ++ ext2 ∧
    Forall (session_event c) ext1 ∧
    (ext2 = [] ∨
     ∃ key, ext2 = [POST (endpoint k (urls c)) q
                      (headers_dict key (origin_ip c))]) ∧
    (∀ v, r = Ok v → ext2 ≠ []).

(** The field names of the table of required fields in the specification,
    which are written there without their prefix. *)
Definition spec_required_fields (k : kind) : list string :=
  match k with
  | C2B => ["Amount"; "Country"; "Currency"; "CustomerMSISDN";
            "ServiceProviderCode"; "ThirdPartyConversationID";
            "TransactionReference"; "PurchasedItemsDesc"]
  | B2C => ["Amount"; "Country"; "Currency"; "CustomerMSISDN";
            "ServiceProviderCode"; "ThirdPartyConversationID";
            "TransactionReference"; "PaymentItemsDesc"]
  | B2B => ["Amount"; "Country"; "Currency"; "PrimaryPartyCode";
            "ReceiverPartyCode"; "ThirdPartyConversationID";
            "TransactionReference"; "PurchasedItemsDesc"]
  | Reversal => ["Country"; "ReversalAmount"; "ServiceProviderCode";
                 "ThirdPartyConversationID"; "TransactionID"]
  | Status => ["Country"; "QueryReference"; "ServiceProviderCode";
               "ThirdPartyConversationID"]
  end.

(** ** A world to run the client in *)

Module Demo.
Definition sandbox_urls : UrlSet :=
  {| session_id := "https://sandbox/getSession/";
     single_stage_c2b := "https://sandbox/c2bPayment/singleStage/";
     single_stage_b2c := "https://sandbox/b2cPayment/";
     single_stage_b2b := "https://sandbox/b2bPayment/";
     payment_reversal_url := "https://sandbox/reversal/";
     transaction_status := "https://sandbox/queryTransactionStatus/" |}.

Definition production_urls : UrlSet :=
  {| session_id := "https://openapi/getSession/";
     single_stage_c2b := "https://openapi/c2bPayment/singleStage/";
     single_stage_b2c := "https://openapi/b2cPayment/";
     single_stage_b2b := "https://openapi/b2bPayment/";
     payment_reversal_url := "https://openapi/reversal/";
     transaction_status := "https://openapi/queryTransactionStatus/" |}.

Definition keys : pyval :=
  PDict {[ "public_key" := PStr "MIICIjANBg"; "api_key" := PStr "k3y" ]}.

Definition session_reply (code : string) : pyval :=
  PDict {[ "output_SessionID" := PStr "5e55";
           "output_ResponseCode" := PStr code;
           "output_ResponseDesc" := PStr "Request processed" ]}.

Definition receipt : pyval :=
  PDict {[ "output_ResponseCode" := PStr "INS-0";
           "output_TransactionID" := PStr "tx1" ]}.

(** A working directory that holds [keys.json] and a directory [config],
    in which there is another readable key store; a service that opens a
    session with the code [code] and answers every POST with a
    receipt. *)
Definition world (code : string) : World :=
  {| service_urls := {| production := production_urls; sandbox := sandbox_urls |};
     listdir := ["config"; "keys.json"];
     open_json := λ name,
       if bool_decide (name = "keys.json") then Loaded keys
       else if bool_decide (name = "config/keys.json") then Loaded keys
       else if bool_decide (name = "config") then LoadRaises OSError
       else LoadRaises FileNotFoundError;
     rsa := λ t p r, Some ("rsa:" +:+ r);
     http_get := λ t url h, Responds (Some (session_reply code));
     http_post := λ t url body h, Responds (Some receipt) |}.

Definition client : Mpesa :=
  {| auth_path := "keys.json";
     auth_keys := Some keys;
     encrypted_api_key := Some "rsa:k3y";
     origin_ip := "*";
     urls := sandbox_urls |}.

Definition start : state :=
  {| self := client; ticks := 1; trace := [Encrypt "MIICIjANBg" "k3y"] |}.

Definition status_query : gmap string pyval :=
  {[ "input_Country" := PStr "TZN";
     "input_QueryReference" := PStr "000000000000000000001";
     "input_ServiceProviderCode" := PStr "000000";
     "input_ThirdPartyConversationID" := PStr "asv02e5958774f7ba228d83d0d689761";
     "note" := PInt 7 ]}.

Definition short_query : gmap string pyval :=
  {[ "input_Country" := PStr "TZN"; "input_Amount" := PStr "10" ]}.
End Demo.

(** What the first call of [__generate_encrypted_key] yields on the key
    store [v] when the world is at time [t]: the API key encrypted under
    the public key, provided [v] is a mapping that holds both as strings
    and the RSA library accepts them. *)
Definition api_key_cipher (w : World) (t : nat) (v : pyval) : option string :=
  match v with
  | PDict keys =>
      match keys !! "public_key", keys !! "api_key" with
      | Some (PStr p), Some (PStr r) => rsa w t p r
      | _, _ => None
      end
  | _ => None
  end.

(** The object a successful construction hands over. *)
Definition constructed (w : World) (auth_path environment : string)
    (v : pyval) (ek : string) : Mpesa :=
  {| auth_path := auth_path;
     auth_keys := Some v;
     encrypted_api_key := Some ek;
     origin_ip := "*";
     urls := if bool_decide (environment = "production")
             then production (service_urls w)
             else sandbox (service_urls w) |}.

(** ** Locators with a directory separator *)

(** [c in s] for a character [c]. *)
Fixpoint contains (c : ascii) (s : string) : bool :=
  match s with
  | EmptyString => false
  | String c' s' => if Ascii.eqb c' c then true else contains c s'
  end.

(** ** Sequences of calls *)

(** A use of the public interface of an object. *)
Inductive call : Type :=
  | CallAuthenticated
  | CallOriginAddress
  | CallSetOriginAddress (ip_address : pyval)
  | CallDefaultHeaders (auth_key : option string)
  | CallGetSessionId
  | CallVerifyQuery (transaction_query : gmap string pyval)
      (required_fields : gset string)
  | CallDispatch (k : kind) (transaction_query : gmap string pyval).

(** The state a call leaves, whether it returns or raises. *)
Definition call_state (w : World) (depth : nat) (cl : call) (st : state)
    : state :=
  match cl with
  | CallAuthenticated => snd (authenticated w depth st)
  | CallOriginAddress => snd (origin_address st)
  | CallSetOriginAddress v => snd (set_origin_address v st)
  | CallDefaultHeaders auth_key => snd (default_headers w depth auth_key st)
  | CallGetSessionId => snd (get_session_id w depth st)
  | CallVerifyQuery q required => snd (verify_query q required st)
  | CallDispatch k q => snd (dispatch w k depth q st)
  end.

Definition calls_state (w : World) (depth : nat) (cls : list call)
    (st : state) : state :=
  foldl (λ st cl, call_state w depth cl st) st cls.

(** The calls that are not a successful assignment to [origin_address]. *)
Definition keeps_origin (cl : call) : bool :=
  match cl with
  | CallSetOriginAddress v => negb (is_str v)
  | _ => true
  end.

Definition dispatches_state (w : World) (depth : nat)
    (kqs : list (kind * gmap string pyval)) (st : state) : state :=
  foldl (λ st kq, snd (dispatch w kq.1 depth kq.2 st)) st kqs.

(** An event whose headers, if it has any, carry the origin [o]. *)
Definition origin_event (o : string) (ev : event) : Prop :=
  ∀ h, event_headers ev = Some h → h !! "Origin" = Some o.

(** What every call keeps: the locator and the endpoints; and what it
    sends carries the origin the object had. *)
Definition follows (st st' : state) : Prop :=
  auth_path (self st') = auth_path (self st) ∧
  urls (self st') = urls (self st) ∧
  ∃ ext, trace st' = trace st ++ ext ∧
         Forall (origin_event (origin_ip (self st))) ext.

(** ** The handshake behind a transaction *)

(** [opens_session w st ek p s key]: on the object of [st], which holds the
    usable encrypted API key [ek] and a key store with the public key [p]
    and an API key, the session endpoint, asked at the time of [st] with
    the headers built from [ek], answers with the three fields, a code
    other than [INS-989] and the session id [s]; and the RSA library, asked
    next, encrypts [s] under [p] to [key]. *)
Definition opens_session (w : World) (st : state) (ek p s key : string)
    : Prop :=
  encrypted_api_key (self st) = Some ek ∧ ek ≠ "" ∧
  ∃ (keys resp : gmap string pyval) (raw code desc : pyval),
    auth_keys (self st) = Some (PDict keys) ∧
    keys !! "public_key" = Some (PStr p) ∧
    keys !! "api_key" = Some raw ∧
    http_get w (ticks st) (session_id (urls (self st)))
      (headers_dict ek (origin_ip (self st)))
      = Responds (Some (PDict resp)) ∧
    resp !! "output_SessionID" = Some (PStr s) ∧
    resp !! "output_ResponseCode" = Some code ∧
    resp !! "output_ResponseDesc" = Some desc ∧
    code ≠ PStr "INS-989" ∧
    rsa w (S (ticks st)) p s = Some key.

Module Faults.
(** The world of [Demo], but the session endpoint always does [session],
    the transaction endpoints always do [answer], and the RSA library
    marks each ciphertext with the time it is asked at. *)
Definition world (session answer : http_outcome) : World :=
  {| service_urls := {| production := Demo.production_urls;
                        sandbox := Demo.sandbox_urls |};
     listdir := ["config"; "keys.json"];
     open_json := λ name,
       if bool_decide (name = "keys.json") then Loaded Demo.keys
       else LoadRaises FileNotFoundError;
     rsa := λ t p r, Some (String (ascii_of_nat (48 + t)) (":" +:+ r));
     http_get := λ t url h, session;
     http_post := λ t url body h, answer |}.

Definition opened : http_outcome :=
  Responds (Some (Demo.session_reply "INS-0")).

(** A client made in this world at time 0. *)
Definition client : Mpesa :=
  {| auth_path := "keys.json";
     auth_keys := Some Demo.keys;
     encrypted_api_key := Some "0:k3y";
     origin_ip := "*";
     urls := Demo.sandbox_urls |}.

Definition start : state :=
  {| self := client; ticks := 1; trace := [Encrypt "MIICIjANBg" "k3y"] |}.

(** The same world after the key store has been overwritten with [{}]. *)
Definition emptied : World :=
  {| service_urls := {| production := Demo.production_urls;
                        sandbox := Demo.sandbox_urls |};
     listdir := ["config"; "keys.json"];
     open_json := λ name,
       if bool_decide (name = "keys.json") then Loaded (PDict ∅)
       else LoadRaises FileNotFoundError;
     rsa := λ t p r, Some (String (ascii_of_nat (48 + t)) (":" +:+ r));
     http_get := λ t url h, opened;
     http_post := λ t url body h, opened |}.

(** An object with no usable stored key. *)
Definition keyless : state :=
  {| self := {| auth_path := "keys.json";
                auth_keys := Some Demo.keys;
                encrypted_api_key := None;
                origin_ip := "*";
                urls := Demo.sandbox_urls |};
     ticks := 0; trace := [] |}.
End Faults.

(** The key stores [__generate_encrypted_key] can read: a mapping that
    holds [public_key] and [api_key], both strings. *)
Definition has_string_keys (v : pyval) : bool :=
  match v with
  | PDict keys =>
      match keys !! "public_key", keys !! "api_key" with
      | Some (PStr _), Some (PStr _) => true
      | _, _ => false
      end
  | _ => false
  end.

(** * Properties *)

(** ** States and the rules of [runs] *)

Lemma advance_nil st : advance st [] = st.
Proof.
  destruct st as [c t tr]. unfold advance. simpl.
  by rewrite Nat.add_0_r, app_nil_r.
Qed.

Lemma advance_app st ext1 ext2 :
  advance (advance st ext1) ext2 = advance st (ext1 ++ ext2).
Proof.
  unfold advance. simpl. rewrite length_app, Nat.add_assoc.
  by rewrite (assoc_L (++)).
Qed.

Lemma ticks_advance st ext : ticks (advance st ext) = ticks st + length ext.
Proof. reflexivity. Qed.

Lemma emit_advance ev st : emit ev st = (Ok (ticks st), advance st [ev]).
Proof. unfold emit, advance. simpl. by rewrite Nat.add_1_r. Qed.

Section Rules.
Context {A B : Type} (c : Mpesa).

Lemma runs_ret (a : A) (Ψ : list event → result A → Prop) :
  Ψ [] (Ok a) → runs c (mret a) Ψ.
Proof.
  intros HΨ st _. exists [], (Ok a). by rewrite advance_nil.
Qed.

Lemma runs_raise (e : exn) (Ψ : list event → result A → Prop) :
  Ψ [] (Err e) → runs c (raise e) Ψ.
Proof.
  intros HΨ st _. exists [], (Err e). by rewrite advance_nil.
Qed.

Lemma runs_weaken (m : M A) (Ψ1 Ψ2 : list event → result A → Prop) :
  runs c m Ψ1 → (∀ ext r, Ψ1 ext r → Ψ2 ext r) → runs c m Ψ2.
Proof.
  intros Hm H12 st Hst. destruct (Hm st Hst) as (ext & r & Hrun & HΨ).
  exists ext, r. auto.
Qed.

Lemma runs_bind (m : M A) (f : A → M B)
    (Ψ1 : list event → result A → Prop)
    (Ψ : list event → result B → Prop) :
  runs c m Ψ1 →
  (∀ ext1 a, Ψ1 ext1 (Ok a) → runs c (f a) (λ ext2 r, Ψ (ext1 ++ ext2) r)) →
  (∀ ext1 e, Ψ1 ext1 (Err e) → Ψ ext1 (Err e)) →
  runs c (m ≫= f) Ψ.
Proof.
  intros Hm Hf He st Hst.
  destruct (Hm st Hst) as (ext1 & r1 & Hrun1 & HΨ1).
  unfold mbind, M_bind. rewrite Hrun1. destruct r1 as [a|e].
  - destruct (Hf ext1 a HΨ1 (advance st ext1) Hst) as (ext2 & r & Hrun2 & HΨ2).
    exists (ext1 ++ ext2), r. by rewrite Hrun2, advance_app.
  - exists ext1, (Err e). auto.
Qed.

Lemma runs_try_except (m : M A) (h : exn → M A)
    (Ψ1 Ψ : list event → result A → Prop) :
  runs c m Ψ1 →
  (∀ ext1 a, Ψ1 ext1 (Ok a) → Ψ ext1 (Ok a)) →
  (∀ ext1 e, Ψ1 ext1 (Err e) → runs c (h e) (λ ext2 r, Ψ (ext1 ++ ext2) r)) →
  runs c (try_except m h) Ψ.
Proof.
  intros Hm Hok Hh st Hst.
  destruct (Hm st Hst) as (ext1 & r1 & Hrun1 & HΨ1).
  unfold try_except. rewrite Hrun1. destruct r1 as [a|e].
  - exists ext1, (Ok a). auto.
  - destruct (Hh ext1 e HΨ1 (advance st ext1) Hst) as (ext2 & r & Hrun2 & HΨ2).
    exists (ext1 ++ ext2), r. by rewrite Hrun2, advance_app.
Qed.

(** The rules for a primitive followed by the rest of the body. *)
Lemma runs_ret_bind (a : A) (f : A → M B)
    (Ψ : list event → result B → Prop) :
  runs c (f a) Ψ → runs c (mret a ≫= f) Ψ.
Proof. intros Hf st Hst. exact (Hf st Hst). Qed.

Lemma runs_raise_bind (e : exn) (f : A → M B)
    (Ψ : list event → result B → Prop) :
  Ψ [] (Err e) → runs c (raise e ≫= f) Ψ.
Proof.
  intros HΨ st _. exists [], (Err e). by rewrite advance_nil.
Qed.

Lemma runs_get_self_bind (g : Mpesa → A) (f : A → M B)
    (Ψ : list event → result B → Prop) :
  runs c (f (g c)) Ψ → runs c (get_self g ≫= f) Ψ.
Proof.
  intros Hf st Hst. unfold mbind, M_bind, get_self. rewrite Hst.
  exact (Hf st Hst).
Qed.
End Rules.

Lemma runs_emit_bind {B} (c : Mpesa) (ev : event) (f : nat → M B)
    (Ψ : list event → result B → Prop) :
  (∀ t, runs c (f t) (λ ext r, Ψ (ev :: ext) r)) →
  runs c (emit ev ≫= f) Ψ.
Proof.
  intros Hf st Hst. unfold mbind, M_bind. rewrite emit_advance.
  destruct (Hf (ticks st) (advance st [ev]) Hst) as (ext & r & Hrun & HΨ).
  exists (ev :: ext), r. by rewrite Hrun, advance_app.
Qed.

(** One step of each of the three mutually recursive methods. *)
Lemma default_headers_S w depth auth_key :
  default_headers w (S depth) auth_key =
  (auth_key ← (if truthy_str auth_key then mret (default "" auth_key)
               else generate_encrypted_key w depth true);
   origin ← origin_address;
   mret (headers_dict auth_key origin)).
Proof. reflexivity. Qed.

Lemma generate_encrypted_key_S w depth session :
  generate_encrypted_key w (S depth) session =
  try_except
    (keys ← get_self auth_keys;
     keys ← from_option mret (raise AttributeError) keys;
     pub_key ← subscript keys "public_key";
     raw_key ← subscript keys "api_key";
     raw_key ← (if session then get_session_id w depth else mret raw_key);
     rsa_encrypt w pub_key raw_key)
    (λ _, raise AuthenticationError).
Proof. reflexivity. Qed.

Lemma get_session_id_S w depth :
  get_session_id w (S depth) =
  try_except
    (key ← get_self encrypted_api_key;
     headers ← default_headers w depth key;
     url ← get_self (session_id ∘ urls);
     response ← requests_get w url headers;
     response ← response_json response;
     session_id ← subscript response "output_SessionID";
     response_code ← subscript response "output_ResponseCode";
     description ← subscript response "output_ResponseDesc";
     if eq_str response_code "INS-989" then raise AuthenticationError
     else mret session_id)
    (λ _, raise AuthenticationError).
Proof. reflexivity. Qed.

Lemma runs_subscript_bind {B} c (v : pyval) (key : string) (f : pyval → M B)
    (Ψ : list event → result B → Prop) :
  (∀ x, runs c (f x) Ψ) → (∀ e, Ψ [] (Err e)) →
  runs c (subscript v key ≫= f) Ψ.
Proof.
  intros Hf He. unfold subscript.
  destruct v as [| | | | |l|d]; try (apply runs_raise_bind, He).
  destruct (d !! key).
  - apply runs_ret_bind, Hf.
  - apply runs_raise_bind, He.
Qed.

Lemma runs_rsa_encrypt w c pub_key raw_key :
  runs c (rsa_encrypt w pub_key raw_key)
    (λ ext _, Forall (session_event c) ext).
Proof.
  unfold rsa_encrypt.
  destruct pub_key; try (apply runs_raise; constructor).
  destruct raw_key; try (apply runs_raise; constructor).
  apply runs_emit_bind. intros t.
  destruct (rsa w t s s0); [apply runs_ret | apply runs_raise];
    repeat constructor.
Qed.

Lemma runs_requests_get w c url headers :
  runs c (requests_get w url headers) (λ ext _, ext = [GET url headers]).
Proof.
  unfold requests_get. apply runs_emit_bind. intros t.
  by destruct (http_get w t url headers); [apply runs_raise | apply runs_ret].
Qed.

Lemma runs_requests_post w c url body headers :
  runs c (requests_post w url body headers)
    (λ ext _, ext = [POST url body headers]).
Proof.
  unfold requests_post. apply runs_emit_bind. intros t.
  by destruct (http_post w t url body headers);
    [apply runs_raise | apply runs_ret].
Qed.

Lemma runs_response_json_bind {B} c (body : option pyval) (f : pyval → M B)
    (Ψ : list event → result B → Prop) :
  (∀ x, runs c (f x) Ψ) → (∀ e, Ψ [] (Err e)) →
  runs c (response_json body ≫= f) Ψ.
Proof.
  intros Hf He. destruct body; [apply runs_ret_bind, Hf | apply runs_raise_bind, He].
Qed.

Lemma runs_handler_auth {A} c (ext1 : list event) :
  Forall (session_event c) ext1 →
  runs c (raise (A:=A) AuthenticationError)
    (λ ext2 _, Forall (session_event c) (ext1 ++ ext2)).
Proof. intros H. apply runs_raise. by rewrite app_nil_r. Qed.

Lemma session_methods_run w c depth :
  (∀ auth_key,
     runs c (default_headers w depth auth_key) (headers_post c auth_key)) ∧
  (∀ session,
     runs c (generate_encrypted_key w depth session)
       (λ ext _, Forall (session_event c) ext)) ∧
  runs c (get_session_id w depth) (λ ext _, Forall (session_event c) ext).
Proof.
  induction depth as [|depth (IHdh & IHgk & IHgs)].
  { split_and!; intros; apply runs_raise; [split; [constructor | intros h Hh; discriminate] | constructor..]. }
  split_and!.
  - intros auth_key. rewrite default_headers_S.
    destruct (truthy_str auth_key) eqn:Hkey.
    + apply runs_ret_bind. unfold origin_address.
      apply runs_get_self_bind, runs_ret. split; [constructor|].
      intros h [= <-]. exists (default "" auth_key). split; [done|].
      intros _. by destruct auth_key.
    + eapply runs_bind; [apply (IHgk true) | | ].
      * intros ext1 k Hext1. unfold origin_address.
        apply runs_get_self_bind, runs_ret. rewrite app_nil_r.
        split; [done|]. intros h [= <-]. exists k. split; [done|].
        intros Htrue. congruence.
      * intros ext1 e Hext1. split; [done|]. done.
  - intros session. rewrite generate_encrypted_key_S.
    eapply runs_try_except with (Ψ1 := λ ext _, Forall (session_event c) ext);
      [ | done | intros; by apply runs_handler_auth].
    apply runs_get_self_bind.
    destruct (auth_keys c) as [keys|]; simpl;
      [apply runs_ret_bind | apply runs_raise_bind; constructor].
    apply runs_subscript_bind; [intros pub_key | constructor].
    apply runs_subscript_bind; [intros raw_key | constructor].
    destruct session.
    + eapply runs_bind; [apply IHgs | | done].
      intros ext1 sid Hext1.
      eapply runs_weaken; [apply runs_rsa_encrypt|].
      intros ext2 r Hext2. by apply Forall_app.
    + apply runs_ret_bind, runs_rsa_encrypt.
  - rewrite get_session_id_S.
    eapply runs_try_except with (Ψ1 := λ ext _, Forall (session_event c) ext);
      [ | done | intros; by apply runs_handler_auth].
    apply runs_get_self_bind.
    eapply runs_bind; [apply IHdh | | by intros ext1 e [? _]].
    intros ext1 headers [Hext1 Hh].
    destruct (Hh headers eq_refl) as (k & -> & Hk).
    apply runs_get_self_bind.
    assert (Hget : Forall (session_event c)
              (ext1 ++ [GET (session_id (urls c)) (headers_dict k (origin_ip c))])).
    { apply Forall_app. split; [done|]. repeat constructor.
      exists k. split; [done|]. intros Htrue. by destruct (Hk Htrue). }
    eapply runs_bind; [apply runs_requests_get | | by intros ext2 e ->].
    intros ext2 response ->.
    apply runs_response_json_bind; [intros resp | by rewrite app_nil_r].
    apply runs_subscript_bind; [intros sid | by rewrite app_nil_r].
    apply runs_subscript_bind; [intros code | by rewrite app_nil_r].
    apply runs_subscript_bind; [intros desc | by rewrite app_nil_r].
    destruct (eq_str code "INS-989"); [apply runs_raise | apply runs_ret];
      by rewrite app_nil_r.
Qed.

(** ** Transaction dispatch *)

Lemma dispatch_eq w k depth q :
  dispatch w k depth q =
  (verify_query q (required_fields k);; post_query w (endpoint k) depth q).
Proof. by destruct k. Qed.

Lemma verify_query_run q required st :
  verify_query q required st =
  (if bool_decide (required ∖ dom q = ∅) then Ok true
   else Err (KeyError (required ∖ dom q)), st).
Proof. unfold verify_query. by case_bool_decide. Qed.

Lemma missing_nonempty (required : gset string) (q : gmap string pyval) :
  required ∖ dom q = ∅ ↔ required ⊆ dom q.
Proof.
  split.
  - intros Hempty f Hf. destruct (decide (f ∈ dom q)) as [|Hnot]; [done|].
    assert (Hin : f ∈ required ∖ dom q) by by apply elem_of_difference.
    rewrite Hempty in Hin. by apply not_elem_of_empty in Hin.
  - intros Hsub. apply set_eq. intros f.
    rewrite elem_of_difference, elem_of_empty.
    split; [intros [Hf Hnot]; by apply Hnot, Hsub | done].
Qed.

Lemma runs_post_query w c k depth q :
  runs c (post_query w (endpoint k) depth q) (dispatch_post c k q).
Proof.
  unfold post_query.
  eapply runs_try_except with (Ψ1 := dispatch_post c k q); [ | done | ].
  - apply runs_get_self_bind.
    eapply runs_bind; [apply session_methods_run | | ].
    + intros ext1 headers [Hext1 Hh].
      destruct (Hh headers eq_refl) as (key & -> & _).
      eapply runs_bind; [apply runs_requests_post | | ].
      * intros ext2 response ->.
        destruct response as [v|]; [apply runs_ret | apply runs_raise];
          rewrite app_nil_r; eexists ext1, [_];
          (split_and!; [done | done | right; by exists key | done]).
      * intros ext2 e ->. eexists ext1, [_].
        split_and!; [done | done | right; by exists key | done].
    + intros ext1 e [Hext1 _]. exists ext1, [].
      rewrite app_nil_r. split_and!; [done | done | by left | done].
  - intros ext1 e (ext1' & ext2 & -> & Hext1 & Hext2 & _).
    assert (Hpost : dispatch_post c k q ((ext1' ++ ext2) ++ []) (Err ConnectionError)).
    { rewrite app_nil_r. exists ext1', ext2. split_and!; done. }
    assert (Hsame : dispatch_post c k q ((ext1' ++ ext2) ++ []) (Err e)).
    { rewrite app_nil_r. exists ext1', ext2. split_and!; done. }
    destruct e; by apply runs_raise.
Qed.

Lemma runs_dispatch w c k depth q :
  runs c (dispatch w k depth q) (dispatch_post c k q).
Proof.
  rewrite dispatch_eq. intros st Hst. unfold mbind, M_bind.
  rewrite verify_query_run. case_bool_decide.
  - by apply runs_post_query.
  - exists [], (Err (KeyError (required_fields k ∖ dom q))).
    rewrite advance_nil. split; [done|]. exists [], [].
    split_and!; [done | constructor | by left | done].
Qed.

(** C3: for each of the five transaction kinds the set of fields checked
    before dispatch is the set of the table of the specification, every
    name carrying the prefix [input_]; the method of that kind checks this
    set with [verify_query] and then posts. *)
Theorem required_fields_table (k : kind) :
  required_fields k
    = list_to_set ((λ f, "input_" +:+ f) <$> spec_required_fields k) ∧
  ∀ w depth q,
    dispatch w k depth q =
    (verify_query q
       (list_to_set ((λ f, "input_" +:+ f) <$> spec_required_fields k));;
     post_query w (endpoint k) depth q).
Proof.
  assert (Heq : required_fields k
    = list_to_set ((λ f, "input_" +:+ f) <$> spec_required_fields k)).
  { destruct k; simpl; set_solver. }
  split; [done|]. intros w depth q. rewrite <- Heq. apply dispatch_eq.
Qed.

(** C2: a query that lacks a required field of the operation makes the call
    fail with the [KeyError] that names exactly the required fields the
    query does not have, and the state, with its trace of requests, is as
    before: nothing was sent. *)
Theorem missing_fields_rejected w (k : kind) depth
    (q : gmap string pyval) (st : state) :
  required_fields k ⊈ dom q →
  ∃ missing : gset string,
    dispatch w k depth q st = (Err (KeyError missing), st) ∧
    missing = required_fields k ∖ dom q ∧
    missing ≠ ∅ ∧
    ∀ f, f ∈ missing ↔ f ∈ required_fields k ∧ q !! f = None.
Proof.
  intros Hmiss. exists (required_fields k ∖ dom q).
  assert (Hne : required_fields k ∖ dom q ≠ ∅).
  { by rewrite missing_nonempty. }
  split_and!; [ | done | done | ].
  - rewrite dispatch_eq. unfold mbind, M_bind.
    rewrite verify_query_run. by rewrite bool_decide_eq_false_2.
  - intros f. rewrite elem_of_difference, not_elem_of_dom. done.
Qed.

Lemma missing_fields_rejected_witness :
  ∃ missing : gset string,
    dispatch (Demo.world "INS-0") C2B 1000 Demo.short_query Demo.start
      = (Err (KeyError missing), Demo.start) ∧
    missing = required_fields C2B ∖ dom Demo.short_query ∧
    missing ≠ ∅ ∧
    ∀ f, f ∈ missing ↔ f ∈ required_fields C2B ∧ Demo.short_query !! f = None.
Proof.
  apply (missing_fields_rejected (Demo.world "INS-0") C2B 1000
           Demo.short_query Demo.start).
  intros Hsub. specialize (Hsub "input_Currency").
  assert (Hin : "input_Currency" ∈ dom Demo.short_query).
  { apply Hsub. unfold required_fields. set_solver. }
  apply elem_of_dom in Hin. destruct Hin as [v Hv].
  vm_compute in Hv. discriminate.
Defined.

(** A query with every required field, on an object for which the headers
    get built and whose endpoint answers with JSON: one POST follows what
    the headers took, and the answer is returned. *)
Lemma dispatch_after_headers w (k : kind) depth (q : gmap string pyval)
    (st st1 : state) (h : gmap string string) (j : pyval) :
  required_fields k ⊆ dom q →
  default_headers w depth (Some "") st = (Ok h, st1) →
  http_post w (ticks st1) (endpoint k (urls (self st))) q h
    = Responds (Some j) →
  dispatch w k depth q st
    = (Ok j, advance st1 [POST (endpoint k (urls (self st))) q h]).
Proof.
  intros Hreq Hheaders Hanswer.
  rewrite dispatch_eq. unfold mbind at 1, M_bind at 1.
  rewrite verify_query_run, bool_decide_eq_true_2 by by apply missing_nonempty.
  unfold post_query, try_except, mbind, M_bind, get_self.
  rewrite Hheaders. unfold requests_post, mbind, M_bind.
  rewrite emit_advance. simpl. by rewrite Hanswer.
Qed.

(** ** Session ids *)

Lemma eq_str_true v s : eq_str v s = true ↔ v = PStr s.
Proof.
  destruct v; simpl; try (split; [discriminate | congruence]).
  rewrite String.eqb_eq. split; congruence.
Qed.

Lemma truthy_str_Some s : s ≠ "" → truthy_str (Some s) = true.
Proof.
  intros Hs. simpl. apply negb_true_iff. by apply String.eqb_neq.
Qed.

(** With a usable key supplied, [default_headers] is the dict literal and
    nothing else happens. *)
Lemma default_headers_given w depth k st :
  k ≠ "" →
  default_headers w (S depth) (Some k) st
    = (Ok (headers_dict k (origin_ip (self st))), st).
Proof.
  intros Hk. rewrite default_headers_S, truthy_str_Some by done. done.
Qed.

(** What [get_session_id] does on an object whose stored key is usable:
    one GET, then a look at the answer. *)
Lemma get_session_id_run w depth st ek :
  encrypted_api_key (self st) = Some ek → ek ≠ "" →
  get_session_id w (S (S depth)) st =
  (match http_get w (ticks st) (session_id (urls (self st)))
           (headers_dict ek (origin_ip (self st))) with
   | Responds (Some (PDict resp)) =>
       match resp !! "output_SessionID", resp !! "output_ResponseCode",
             resp !! "output_ResponseDesc" with
       | Some sid, Some code, Some _ =>
           if eq_str code "INS-989" then Err AuthenticationError else Ok sid
       | _, _, _ => Err AuthenticationError
       end
   | _ => Err AuthenticationError
   end,
   advance st [GET (session_id (urls (self st)))
                 (headers_dict ek (origin_ip (self st)))]).
Proof.
  intros Hkey Hek. rewrite get_session_id_S.
  unfold try_except, mbind at 1, M_bind at 1, get_self at 1. rewrite Hkey.
  unfold mbind at 1, M_bind at 1. rewrite default_headers_given by done.
  unfold mbind at 1, M_bind at 1, get_self at 1.
  unfold mbind at 1, M_bind at 1, requests_get, mbind at 1, M_bind at 1.
  rewrite emit_advance. simpl.
  destruct (http_get w _ _ _) as [e|[v|]]; simpl; try done.
  unfold mbind, M_bind, subscript.
  destruct v as [| | | | | |resp]; simpl; try done.
  destruct (resp !! "output_SessionID") as [sid|]; simpl; [|done].
  destruct (resp !! "output_ResponseCode") as [code|]; simpl; [|done].
  destruct (resp !! "output_ResponseDesc") as [desc|]; simpl; [|done].
  by destruct (eq_str code "INS-989").
Qed.

(** C5: on an object whose stored key is usable, [get_session_id] sends
    one GET to the session endpoint.  It fails with [AuthenticationError]
    when the answer carries the code [INS-989], whether or not it carries a
    session id, when the transport raises, when the body is not JSON, when
    the body is not a mapping and when one of the three fields is missing;
    otherwise it returns the value of [output_SessionID]. *)
Theorem get_session_id_outcomes (w : World) (depth : nat) (st : state)
    (ek : string) :
  (2 ≤ depth)%nat →
  encrypted_api_key (self st) = Some ek → ek ≠ "" →
  let url := session_id (urls (self st)) in
  let headers := headers_dict ek (origin_ip (self st)) in
  let answer := http_get w (ticks st) url headers in
  let outcome := get_session_id w depth st in
  snd outcome = advance st [GET url headers] ∧
  (∀ resp, answer = Responds (Some (PDict resp)) →
     resp !! "output_ResponseCode" = Some (PStr "INS-989") →
     fst outcome = Err AuthenticationError) ∧
  (∀ e, answer = Raises e → fst outcome = Err AuthenticationError) ∧
  (answer = Responds None → fst outcome = Err AuthenticationError) ∧
  (∀ v, answer = Responds (Some v) → (∀ resp, v ≠ PDict resp) →
     fst outcome = Err AuthenticationError) ∧
  (∀ resp f, answer = Responds (Some (PDict resp)) →
     f ∈ ["output_SessionID"; "output_ResponseCode"; "output_ResponseDesc"] →
     resp !! f = None →
     fst outcome = Err AuthenticationError) ∧
  (∀ resp sid code desc, answer = Responds (Some (PDict resp)) →
     resp !! "output_SessionID" = Some sid →
     resp !! "output_ResponseCode" = Some code →
     resp !! "output_ResponseDesc" = Some desc →
     code ≠ PStr "INS-989" →
     fst outcome = Ok sid).
Proof.
  intros Hdepth Hkey Hek url headers answer outcome.
  destruct depth as [|[|depth]]; [lia..|].
  subst outcome. rewrite (get_session_id_run w depth st ek Hkey Hek).
  fold url headers answer. simpl fst. simpl snd.
  split_and!; [done | | | | | | ].
  - intros resp -> Hcode. rewrite Hcode.
    by destruct (resp !! "output_SessionID"), (resp !! "output_ResponseDesc").
  - by intros e ->.
  - by intros ->.
  - intros v -> Hv. destruct v; try done. by destruct (Hv d).
  - intros resp f -> Hf Hnone.
    rewrite !elem_of_cons, elem_of_nil in Hf.
    destruct Hf as [->|[->|[->|[]]]]; rewrite Hnone;
      by repeat (case_match; try done).
  - intros resp sid code desc -> -> -> -> Hcode.
    destruct (eq_str code "INS-989") eqn:Heq; [|done].
    by apply eq_str_true in Heq.
Qed.

Lemma get_session_id_outcomes_witness :
  fst (get_session_id (Demo.world "INS-989") 1000 Demo.start)
    = Err AuthenticationError ∧
  fst (get_session_id (Demo.world "INS-0") 1000 Demo.start)
    = Ok (PStr "5e55").
Proof.
  assert (Hdepth : (2 ≤ 1000)%nat) by lia.
  assert (Hkey : encrypted_api_key (self Demo.start) = Some "rsa:k3y")
    by reflexivity.
  assert (Hek : "rsa:k3y" ≠ "") by discriminate.
  split.
  - destruct (get_session_id_outcomes (Demo.world "INS-989") 1000 Demo.start
                "rsa:k3y" Hdepth Hkey Hek) as (_ & Hrejected & _).
    eapply Hrejected; [reflexivity|]. vm_compute. reflexivity.
  - destruct (get_session_id_outcomes (Demo.world "INS-0") 1000 Demo.start
                "rsa:k3y" Hdepth Hkey Hek) as (_ & _ & _ & _ & _ & _ & Hopened).
    eapply Hopened; [reflexivity | vm_compute; reflexivity ..| discriminate].
Defined.

(** ** Headers *)

Lemma headers_dict_entries (auth_key origin : string) :
  dom (headers_dict auth_key origin)
    = {[ "Content-Type"; "Authorization"; "Host"; "Origin" ]} ∧
  headers_dict auth_key origin !! "Content-Type" = Some "application/json" ∧
  headers_dict auth_key origin !! "Authorization"
    = Some ("Bearer " +:+ auth_key) ∧
  headers_dict auth_key origin !! "Host" = Some "openapi.m-pesa.com" ∧
  headers_dict auth_key origin !! "Origin" = Some origin.
Proof.
  unfold headers_dict. split_and!.
  - rewrite !dom_insert_L, dom_singleton_L. set_solver.
  - by rewrite lookup_insert_eq.
  - rewrite lookup_insert_ne by done. by rewrite lookup_insert_eq.
  - do 2 (rewrite lookup_insert_ne by done). by rewrite lookup_insert_eq.
  - do 3 (rewrite lookup_insert_ne by done). by rewrite lookup_singleton_eq.
Qed.

(** Without a usable key supplied, on an object whose stored key is usable
    and whose key store has the two fields: the session id is fetched, then
    encrypted under the public key. *)
Lemma default_headers_session w depth (auth_key : option string) st ek
    (keys resp : gmap string pyval) (p s k : string) (raw code desc : pyval) :
  truthy_str auth_key = false →
  encrypted_api_key (self st) = Some ek → ek ≠ "" →
  auth_keys (self st) = Some (PDict keys) →
  keys !! "public_key" = Some (PStr p) →
  keys !! "api_key" = Some raw →
  http_get w (ticks st) (session_id (urls (self st)))
    (headers_dict ek (origin_ip (self st))) = Responds (Some (PDict resp)) →
  resp !! "output_SessionID" = Some (PStr s) →
  resp !! "output_ResponseCode" = Some code →
  resp !! "output_ResponseDesc" = Some desc →
  code ≠ PStr "INS-989" →
  rsa w (S (ticks st)) p s = Some k →
  default_headers w (S (S (S (S depth)))) auth_key st =
  (Ok (headers_dict k (origin_ip (self st))),
   advance st [GET (session_id (urls (self st)))
                 (headers_dict ek (origin_ip (self st)));
               Encrypt p s]).
Proof.
  intros Hak Hkey Hek Hkeys Hpub Hraw Hget Hsid Hcode Hdesc Hok Hrsa.
  rewrite default_headers_S, Hak, generate_encrypted_key_S.
  unfold mbind at 1, M_bind at 1, try_except.
  unfold mbind at 1, M_bind at 1, get_self at 1. rewrite Hkeys. simpl.
  unfold mbind at 1, M_bind at 1. simpl. rewrite Hpub. simpl.
  unfold mbind at 1, M_bind at 1. rewrite Hraw. simpl.
  unfold mbind, M_bind, mret, M_ret. cbn beta iota.
  rewrite (get_session_id_run w depth st ek Hkey Hek), Hget, Hsid, Hcode, Hdesc.
  destruct (eq_str code "INS-989") eqn:Heq;
    [by apply eq_str_true in Heq|].
  rewrite emit_advance, ticks_advance.
  replace (ticks st + _) with (S (ticks st)) by (simpl; lia).
  rewrite Hrsa. unfold origin_address, get_self.
  by rewrite advance_app.
Qed.

(** C6: [default_headers] returns the mapping of exactly four headers.
    Given a non-empty key it uses that key and does nothing else: the state
    and its trace are as before.  Given no key or the empty one, it sends
    the session request, authenticated with the stored key, encrypts the
    session id it gets, and uses the result. *)
Theorem default_headers_built (w : World) (depth : nat) (st : state) :
  (4 ≤ depth)%nat →
  (∀ auth_key origin,
     dom (headers_dict auth_key origin)
       = {[ "Content-Type"; "Authorization"; "Host"; "Origin" ]} ∧
     headers_dict auth_key origin !! "Content-Type" = Some "application/json" ∧
     headers_dict auth_key origin !! "Authorization"
       = Some ("Bearer " +:+ auth_key) ∧
     headers_dict auth_key origin !! "Host" = Some "openapi.m-pesa.com" ∧
     headers_dict auth_key origin !! "Origin" = Some origin) ∧
  (∀ k, k ≠ "" →
     default_headers w depth (Some k) st
       = (Ok (headers_dict k (origin_ip (self st))), st)) ∧
  (∀ auth_key ek keys resp p s k raw code desc,
     auth_key = None ∨ auth_key = Some "" →
     encrypted_api_key (self st) = Some ek → ek ≠ "" →
     auth_keys (self st) = Some (PDict keys) →
     keys !! "public_key" = Some (PStr p) →
     keys !! "api_key" = Some raw →
     http_get w (ticks st) (session_id (urls (self st)))
       (headers_dict ek (origin_ip (self st))) = Responds (Some (PDict resp)) →
     resp !! "output_SessionID" = Some (PStr s) →
     resp !! "output_ResponseCode" = Some code →
     resp !! "output_ResponseDesc" = Some desc →
     code ≠ PStr "INS-989" →
     rsa w (S (ticks st)) p s = Some k →
     default_headers w depth auth_key st =
     (Ok (headers_dict k (origin_ip (self st))),
      advance st [GET (session_id (urls (self st)))
                    (headers_dict ek (origin_ip (self st)));
                  Encrypt p s])).
Proof.
  intros Hdepth.
  destruct depth as [|[|[|[|depth]]]]; [lia..|].
  split_and!.
  - apply headers_dict_entries.
  - intros k Hk. by apply default_headers_given.
  - intros auth_key ek keys resp p s k raw code desc Hak. intros.
    eapply default_headers_session; try done.
    by destruct Hak as [-> | ->].
Qed.

Lemma default_headers_built_witness :
  default_headers (Demo.world "INS-0") 1000 (Some "given") Demo.start
    = (Ok (headers_dict "given" "*"), Demo.start) ∧
  default_headers (Demo.world "INS-0") 1000 None Demo.start
    = (Ok (headers_dict "rsa:5e55" "*"),
       advance Demo.start
         [GET "https://sandbox/getSession/" (headers_dict "rsa:k3y" "*");
          Encrypt "MIICIjANBg" "5e55"]).
Proof.
  assert (Hdepth : (4 ≤ 1000)%nat) by lia.
  destruct (default_headers_built (Demo.world "INS-0") 1000 Demo.start Hdepth)
    as (_ & Hgiven & Hsession).
  split.
  - apply Hgiven. discriminate.
  - eapply (Hsession None "rsa:k3y" _ _ "MIICIjANBg" "5e55" "rsa:5e55");
      [by left | reflexivity | discriminate | reflexivity
      | vm_compute; reflexivity | vm_compute; reflexivity
      | reflexivity | vm_compute; reflexivity | vm_compute; reflexivity
      | vm_compute; reflexivity | discriminate | reflexivity].
Defined.

(** ** One POST for a complete query *)

(** C4: a query that has every required field of the kind, whatever else
    it holds, is sent in exactly one POST to the endpoint of the kind, as
    the JSON body and whole, and the parsed answer [j] is returned as it
    is, whatever it says.  This is so on an object with its key store and
    a usable stored key, when the session endpoint opens a session, the
    session id gets encrypted and the endpoint answers with JSON.  The
    calls made are the session GET, the encryption and the POST. *)
Theorem dispatch_posts_once (w : World) (k : kind) (depth : nat)
    (q : gmap string pyval) (st : state) (ek : string)
    (keys resp : gmap string pyval) (p s key : string)
    (raw code desc j : pyval) :
  (4 ≤ depth)%nat →
  required_fields k ⊆ dom q →
  encrypted_api_key (self st) = Some ek → ek ≠ "" →
  auth_keys (self st) = Some (PDict keys) →
  keys !! "public_key" = Some (PStr p) →
  keys !! "api_key" = Some raw →
  http_get w (ticks st) (session_id (urls (self st)))
    (headers_dict ek (origin_ip (self st))) = Responds (Some (PDict resp)) →
  resp !! "output_SessionID" = Some (PStr s) →
  resp !! "output_ResponseCode" = Some code →
  resp !! "output_ResponseDesc" = Some desc →
  code ≠ PStr "INS-989" →
  rsa w (S (ticks st)) p s = Some key →
  http_post w (S (S (ticks st))) (endpoint k (urls (self st))) q
    (headers_dict key (origin_ip (self st))) = Responds (Some j) →
  let sent := POST (endpoint k (urls (self st))) q
                (headers_dict key (origin_ip (self st))) in
  let made := [GET (session_id (urls (self st)))
                 (headers_dict ek (origin_ip (self st)));
               Encrypt p s; sent] in
  dispatch w k depth q st = (Ok j, advance st made) ∧
  filter (λ ev, is_post ev = true) made = [sent].
Proof.
  intros Hdepth Hreq Hkey Hek Hkeys Hpub Hraw Hget Hsid Hcode Hdesc Hok Hrsa
    Hpost sent made.
  split; [|done].
  destruct depth as [|[|[|[|depth]]]]; [lia..|].
  rewrite (dispatch_after_headers w k _ q st _ _ j Hreq
             (default_headers_session w depth (Some "") st ek keys resp p s key
                raw code desc eq_refl Hkey Hek Hkeys Hpub Hraw Hget Hsid Hcode
                Hdesc Hok Hrsa)).
  - by rewrite advance_app.
  - rewrite ticks_advance.
    by replace (ticks st + _) with (S (S (ticks st))) by (simpl; lia).
Qed.

Lemma dispatch_posts_once_witness :
  dispatch (Demo.world "INS-0") Status 1000 Demo.status_query Demo.start
    = (Ok Demo.receipt,
       advance Demo.start
         [GET "https://sandbox/getSession/" (headers_dict "rsa:k3y" "*");
          Encrypt "MIICIjANBg" "5e55";
          POST "https://sandbox/queryTransactionStatus/" Demo.status_query
            (headers_dict "rsa:5e55" "*")]).
Proof.
  assert (Hdepth : (4 ≤ 1000)%nat) by lia.
  eapply (dispatch_posts_once (Demo.world "INS-0") Status 1000
            Demo.status_query Demo.start "rsa:k3y" _ _ "MIICIjANBg" "5e55"
            "rsa:5e55" _ _ _ Demo.receipt Hdepth);
    [apply missing_nonempty; vm_compute; reflexivity
    | reflexivity | discriminate | reflexivity
    | vm_compute; reflexivity | vm_compute; reflexivity
    | reflexivity | vm_compute; reflexivity | vm_compute; reflexivity
    | vm_compute; reflexivity | discriminate | reflexivity | reflexivity].
Defined.

(** ** Construction *)

(** Run the monadic glue of a method body as far as it goes. *)
Ltac run_monad :=
  repeat (progress
    (unfold mbind, M_bind, mret, M_ret, raise, try_except, get_self, set_self;
     cbn beta iota;
     cbn [self ticks trace auth_path auth_keys encrypted_api_key origin_ip
          urls fst snd negb advance init_attributes set_auth_keys
          set_encrypted_api_key set_origin_ip])).

Lemma generate_api_key_run w depth st v :
  auth_keys (self st) = Some v →
  ∃ ext,
    generate_encrypted_key w (S depth) false st =
    (match api_key_cipher w (ticks st) v with
     | Some ek => Ok ek
     | None => Err AuthenticationError
     end, advance st ext).
Proof.
  intros Hkeys. rewrite generate_encrypted_key_S.
  unfold try_except, mbind, M_bind, get_self, mret, M_ret, raise.
  rewrite Hkeys. cbn beta iota. unfold from_option, subscript, api_key_cipher.
  destruct v as [| | | | | |keys];
    try (exists []; by rewrite advance_nil).
  destruct (keys !! "public_key") as [pub|]; cbn beta iota;
    [|exists []; by rewrite advance_nil].
  destruct (keys !! "api_key") as [raw|]; cbn beta iota;
    [|exists []; rewrite advance_nil; by destruct pub].
  unfold mret, M_ret, raise, rsa_encrypt.
  destruct pub as [| | | |p| |]; try (exists []; by rewrite advance_nil).
  destruct raw as [| | | |r| |]; try (exists []; by rewrite advance_nil).
  unfold mbind, M_bind. rewrite emit_advance. exists [Encrypt p r].
  by destruct (rsa w (ticks st) p r).
Qed.

(** Every way construction can end. *)
Lemma Mpesa_new_cases w path env depth t tr :
  ((path ∉ listdir w) ∧
   Mpesa_new w path env (S depth) t tr = (Err FileNotFoundError, (t, tr))) ∨
  (path ∈ listdir w ∧ open_json w path = LoadRaises FileNotFoundError ∧
   Mpesa_new w path env (S depth) t tr = (Err FileNotFoundError, (t, tr))) ∨
  (path ∈ listdir w ∧
   (∃ e, open_json w path = LoadRaises e ∧ e ≠ FileNotFoundError) ∧
   Mpesa_new w path env (S depth) t tr = (Err LoadingKeyError, (t, tr))) ∨
  (path ∈ listdir w ∧
   (∃ v, open_json w path = Loaded v ∧ truthy v = false) ∧
   Mpesa_new w path env (S depth) t tr = (Err AuthenticationError, (t, tr))) ∨
  (path ∈ listdir w ∧
   (∃ v, open_json w path = Loaded v ∧ truthy v = true ∧
         (api_key_cipher w t v = None ∨ api_key_cipher w t v = Some "")) ∧
   fst (Mpesa_new w path env (S depth) t tr) = Err AuthenticationError) ∨
  (path ∈ listdir w ∧
   ∃ v ek, open_json w path = Loaded v ∧ truthy v = true ∧
           api_key_cipher w t v = Some ek ∧ ek ≠ "" ∧
           fst (Mpesa_new w path env (S depth) t tr)
             = Ok (constructed w path env v ek)).
Proof.
  unfold Mpesa_new, init, authenticated, load_keys. run_monad.
  case_bool_decide as Hin; [|by left].
  right. destruct (open_json w path) as [e|v] eqn:Hopen; run_monad.
  { destruct e; run_monad;
      try (right; left;
           split_and!; [done | eexists; split; [done | discriminate] | done]).
    by left. }
  do 2 right.
  destruct (truthy v) eqn:Htruthy; run_monad;
    [|left; split_and!; [done | by exists v | done]].
  right.
  match goal with
  | |- context [generate_encrypted_key w (S depth) false ?s] =>
      destruct (generate_api_key_run w depth s v eq_refl) as [ext Hgen]
  end.
  rewrite Hgen. run_monad.
  destruct (api_key_cipher w t v) as [ek|] eqn:Hcipher; run_monad;
    [|left; split_and!; [done | by exists v; auto | done]].
  unfold truthy_str.
  destruct (String.eqb ek "") eqn:Hek; run_monad.
  - apply String.eqb_eq in Hek as ->.
    left. split_and!; [done | exists v; auto | done].
  - apply String.eqb_neq in Hek.
    right. split; [done|]. by exists v, ek.
Qed.

(** C1, as the code has it: construction fails with [FileNotFoundError]
    when the locator is not in the listing of the working directory or the
    file cannot be opened because it is not there, with [LoadingKeyError]
    when opening or parsing fails in any other way, and with
    [AuthenticationError] when the loaded key store is empty or the first
    encryption of the API key fails or is empty.  Otherwise it succeeds, and
    the object handed over has the key store and a non-empty encrypted key:
    whenever construction returns an object, it is that one. *)
Theorem construction_outcomes (w : World) (path env : string) (depth t : nat)
    (tr : list event) :
  (1 ≤ depth)%nat →
  let made := Mpesa_new w path env depth t tr in
  (path ∉ listdir w → made = (Err FileNotFoundError, (t, tr))) ∧
  (path ∈ listdir w → open_json w path = LoadRaises FileNotFoundError →
     made = (Err FileNotFoundError, (t, tr))) ∧
  (path ∈ listdir w →
     ∀ e, open_json w path = LoadRaises e → e ≠ FileNotFoundError →
     made = (Err LoadingKeyError, (t, tr))) ∧
  (path ∈ listdir w →
     ∀ v, open_json w path = Loaded v → truthy v = false →
     made = (Err AuthenticationError, (t, tr))) ∧
  (path ∈ listdir w →
     ∀ v, open_json w path = Loaded v → truthy v = true →
     api_key_cipher w t v = None ∨ api_key_cipher w t v = Some "" →
     fst made = Err AuthenticationError) ∧
  (path ∈ listdir w →
     ∀ v ek, open_json w path = Loaded v → truthy v = true →
     api_key_cipher w t v = Some ek → ek ≠ "" →
     fst made = Ok (constructed w path env v ek)) ∧
  (∀ c, fst made = Ok c →
     path ∈ listdir w ∧
     ∃ v ek, open_json w path = Loaded v ∧ truthy v = true ∧
             api_key_cipher w t v = Some ek ∧ ek ≠ "" ∧
             c = constructed w path env v ek).
Proof.
  intros Hdepth made. destruct depth as [|depth]; [lia|]. subst made.
  destruct (Mpesa_new_cases w path env depth t tr) as
    [ [Hout Hmade]
    | [ (Hin & Hopen & Hmade)
      | [ (Hin & (e & Hopen & Hne) & Hmade)
        | [ (Hin & (v & Hopen & Hfalsy) & Hmade)
          | [ (Hin & (v & Hopen & Htruthy & Hcipher) & Hmade)
            | (Hin & v & ek & Hopen & Htruthy & Hcipher & Hek & Hmade) ]]]]];
    rewrite Hmade; simpl fst;
    (split_and!; intros; try done; try congruence;
     try (destruct_or!; congruence)).
  split; [done|]. exists v, ek. split_and!; congruence.
Qed.

Lemma construction_outcomes_witness :
  fst (Mpesa_new (Demo.world "INS-0") "keys.json" "testing" 1000 0 [])
    = Ok Demo.client.
Proof.
  assert (Hdepth : (1 ≤ 1000)%nat) by lia.
  destruct (construction_outcomes (Demo.world "INS-0") "keys.json" "testing"
              1000 0 [] Hdepth) as (_ & _ & _ & _ & _ & Hmade & _).
  apply (Hmade ltac:(vm_compute; set_solver) Demo.keys "rsa:k3y");
    [reflexivity | vm_compute; reflexivity | vm_compute; reflexivity
    | discriminate].
Defined.

(** C1 as stated fails: a locator that is not in the listing of the working
    directory, and a locator that names a directory, both keep the
    credentials from being loaded, and construction fails with
    [FileNotFoundError] and with [LoadingKeyError]. *)
Lemma construction_error_is_not_always_authentication :
  ("absent.json" ∉ listdir (Demo.world "INS-0")) ∧
  fst (Mpesa_new (Demo.world "INS-0") "absent.json" "testing" 1000 0 [])
    = Err FileNotFoundError ∧
  fst (Mpesa_new (Demo.world "INS-0") "absent.json" "testing" 1000 0 [])
    ≠ Err AuthenticationError ∧
  open_json (Demo.world "INS-0") "config" = LoadRaises OSError ∧
  fst (Mpesa_new (Demo.world "INS-0") "config" "testing" 1000 0 [])
    = Err LoadingKeyError ∧
  fst (Mpesa_new (Demo.world "INS-0") "config" "testing" 1000 0 [])
    ≠ Err AuthenticationError.
Proof.
  split_and!.
  - simpl. intros Hin. rewrite !elem_of_cons, elem_of_nil in Hin.
    destruct Hin as [Hin|[Hin|[]]]; discriminate.
  - vm_compute. reflexivity.
  - vm_compute. discriminate.
  - vm_compute. reflexivity.
  - vm_compute. reflexivity.
  - vm_compute. discriminate.
Qed.

(** C10: the key store is looked for in the listing of the working
    directory.  The names in a listing have no directory separator, so a
    locator that has one is never found, whatever is on the disk at that
    path: construction raises [FileNotFoundError] without opening
    anything. *)
Theorem separator_locator_is_not_found (w : World) (sep : ascii)
    (path env : string) (depth t : nat) (tr : list event) :
  contains sep path = true →
  (∀ name, name ∈ listdir w → contains sep name = false) →
  Mpesa_new w path env depth t tr = (Err FileNotFoundError, (t, tr)).
Proof.
  intros Hsep Hnames.
  assert (Hout : path ∉ listdir w).
  { intros Hin. apply Hnames in Hin. congruence. }
  unfold Mpesa_new, init, authenticated. run_monad.
  by rewrite bool_decide_eq_false_2.
Qed.

Lemma separator_locator_is_not_found_witness :
  open_json (Demo.world "INS-0") "config/keys.json" = Loaded Demo.keys ∧
  Mpesa_new (Demo.world "INS-0") "config/keys.json" "testing" 1000 0 []
    = (Err FileNotFoundError, (0, [])).
Proof.
  split; [reflexivity|].
  apply (separator_locator_is_not_found (Demo.world "INS-0") "/"%char).
  - reflexivity.
  - intros name Hin. simpl in Hin.
    rewrite !elem_of_cons, elem_of_nil in Hin.
    by destruct Hin as [->|[->|[]]].
Defined.

Lemma session_event_origin c ev :
  session_event c ev → origin_event (origin_ip c) ev.
Proof.
  destruct ev as [url h|url body h|p r]; simpl; [|done|done].
  intros (_ & k & -> & _) h' [= <-]. apply headers_dict_entries.
Qed.

Lemma dispatch_post_origin c k q ext r :
  dispatch_post c k q ext r → Forall (origin_event (origin_ip c)) ext.
Proof.
  intros (ext1 & ext2 & -> & Hext1 & Hext2 & _). apply Forall_app. split.
  - eapply Forall_impl; [exact Hext1|]. apply session_event_origin.
  - destruct Hext2 as [->|[key ->]]; [constructor|].
    repeat constructor. intros h [= <-]. apply headers_dict_entries.
Qed.

Lemma follows_refl st : follows st st.
Proof.
  split_and!; [done..|]. exists []. by rewrite app_nil_r.
Qed.

Lemma follows_advance st ext :
  Forall (origin_event (origin_ip (self st))) ext → follows st (advance st ext).
Proof. intros Hext. split_and!; [done..|]. by exists ext. Qed.

Lemma authenticated_follows w depth st :
  follows st (snd (authenticated w depth st)) ∧
  origin_ip (self (snd (authenticated w depth st))) = origin_ip (self st).
Proof.
  unfold authenticated, load_keys. run_monad.
  case_bool_decide; run_monad; [|split; [apply follows_refl | done]].
  destruct (open_json w _) as [e|v]; run_monad.
  { destruct e; run_monad; (split; [apply follows_refl | done]). }
  destruct (truthy v); run_monad;
    [|split; [split_and!; [done..|]; exists []; by rewrite app_nil_r | done]].
  match goal with
  | |- context [generate_encrypted_key w depth false ?s] =>
      destruct (proj1 (proj2 (session_methods_run w (self s) depth)) false
                  s eq_refl) as (ext & r & Hgen & Hext)
  end.
  rewrite Hgen.
  assert (Horigin : Forall (origin_event (origin_ip (self st))) ext).
  { eapply Forall_impl; [exact Hext|]. intros ev Hev.
    by apply session_event_origin in Hev. }
  destruct r as [key|e]; run_monad.
  - destruct (truthy_str (Some key)); run_monad;
      (split; [split_and!; [done..|]; by exists ext | done]).
  - split; [split_and!; [done..|]; by exists ext | done].
Qed.

Lemma call_state_follows w depth cl st :
  follows st (call_state w depth cl st) ∧
  (keeps_origin cl = true →
   origin_ip (self (call_state w depth cl st)) = origin_ip (self st)).
Proof.
  destruct cl as [| |v|auth_key| |q required|k q]; simpl.
  - destruct (authenticated_follows w depth st). done.
  - split; [apply follows_refl | done].
  - destruct v; simpl; try (split; [apply follows_refl | done]).
    split; [|done]. split_and!; [done..|]. exists []. by rewrite app_nil_r.
  - destruct (proj1 (session_methods_run w (self st) depth) auth_key st eq_refl)
      as (ext & r & -> & Hext & _).
    split; [|done]. apply follows_advance.
    eapply Forall_impl; [exact Hext|]. apply session_event_origin.
  - destruct (proj2 (proj2 (session_methods_run w (self st) depth)) st eq_refl)
      as (ext & r & -> & Hext).
    split; [|done]. apply follows_advance.
    eapply Forall_impl; [exact Hext|]. apply session_event_origin.
  - rewrite verify_query_run. split; [apply follows_refl | done].
  - destruct (runs_dispatch w (self st) k depth q st eq_refl)
      as (ext & r & -> & Hext).
    split; [|done]. apply follows_advance. by eapply dispatch_post_origin.
Qed.

Lemma calls_state_urls w depth cls st :
  urls (self (calls_state w depth cls st)) = urls (self st).
Proof.
  revert st. induction cls as [|cl cls IH]; intros st; [done|].
  unfold calls_state in *. simpl. rewrite IH.
  by destruct (call_state_follows w depth cl st) as [(_ & Hurls & _) _].
Qed.

Lemma calls_state_origin w depth cls st :
  Forall (λ cl, keeps_origin cl = true) cls →
  origin_ip (self (calls_state w depth cls st)) = origin_ip (self st) ∧
  ∃ ext, trace (calls_state w depth cls st) = trace st ++ ext ∧
         Forall (origin_event (origin_ip (self st))) ext.
Proof.
  revert st. induction cls as [|cl cls IH]; intros st Hcls.
  { split; [done|]. exists []. by rewrite app_nil_r. }
  apply Forall_cons in Hcls as [Hcl Hcls].
  destruct (call_state_follows w depth cl st)
    as [(_ & _ & ext1 & Htrace1 & Hext1) Horigin].
  specialize (Horigin Hcl).
  destruct (IH (call_state w depth cl st) Hcls) as (Horigin' & ext2 & Htrace2 & Hext2).
  unfold calls_state in *. simpl. split; [congruence|].
  exists (ext1 ++ ext2). rewrite Htrace2, Htrace1, (assoc_L (++)).
  split; [done|]. apply Forall_app. split; [done|]. by rewrite <- Horigin.
Qed.

(** A constructed object is the one [constructed] describes, for any depth
    of stack: with no frame left construction raises. *)
Lemma Mpesa_new_ok w path env depth t tr c t' tr' :
  Mpesa_new w path env depth t tr = (Ok c, (t', tr')) →
  ∃ v ek, c = constructed w path env v ek ∧ ek ≠ "".
Proof.
  intros Hmade. destruct depth as [|depth].
  - revert Hmade. unfold Mpesa_new, init, authenticated, load_keys. run_monad.
    case_bool_decide; run_monad; [|done].
    destruct (open_json w path) as [e|v]; run_monad; [by destruct e|].
    by destruct (truthy v).
  - destruct (Mpesa_new_cases w path env depth t tr) as
      [ [_ Hcase]
      | [ (_ & _ & Hcase)
        | [ (_ & _ & Hcase)
          | [ (_ & _ & Hcase)
            | [ (_ & _ & Hcase)
              | (_ & v & ek & _ & _ & _ & Hek & Hcase) ]]]]];
      rewrite Hmade in Hcase; try done.
    injection Hcase as ->. by exists v, ek.
Qed.

(** C8: the endpoints of a constructed object are the production table
    when the environment is the string [production] and the sandbox table
    for any other string, and no sequence of calls on the object changes
    them. *)
Theorem urls_resolved_and_kept (w : World) (path env : string)
    (depth t : nat) (tr : list event) (c : Mpesa) (t' : nat)
    (tr' : list event) :
  Mpesa_new w path env depth t tr = (Ok c, (t', tr')) →
  (env = "production" → urls c = production (service_urls w)) ∧
  (env ≠ "production" → urls c = sandbox (service_urls w)) ∧
  ∀ depth' cls st,
    self st = c → urls (self (calls_state w depth' cls st)) = urls c.
Proof.
  intros Hmade. destruct (Mpesa_new_ok _ _ _ _ _ _ _ _ _ Hmade)
    as (v & ek & -> & _).
  split_and!.
  - intros ->. unfold constructed. cbn [urls].
    by rewrite bool_decide_eq_true_2.
  - intros Hne. unfold constructed. cbn [urls].
    by rewrite bool_decide_eq_false_2.
  - intros depth' cls st <-. apply calls_state_urls.
Qed.

Lemma urls_resolved_and_kept_witness :
  urls (constructed (Demo.world "INS-0") "keys.json" "production"
          Demo.keys "rsa:k3y") = Demo.production_urls ∧
  urls Demo.client = Demo.sandbox_urls.
Proof.
  split.
  - eapply (urls_resolved_and_kept (Demo.world "INS-0") "keys.json"
              "production" 1000 0 []); [vm_compute; reflexivity | reflexivity].
  - eapply (urls_resolved_and_kept (Demo.world "INS-0") "keys.json"
              "testing" 1000 0 []); [vm_compute; reflexivity | discriminate].
Defined.

(** ** What dispatch leaves alone *)

Lemma dispatch_gets w k depth q st ek :
  encrypted_api_key (self st) = Some ek → ek ≠ "" →
  ∃ ext, snd (dispatch w k depth q st) = advance st ext ∧
    ∀ url h, GET url h ∈ ext →
      url = session_id (urls (self st)) ∧
      h = headers_dict ek (origin_ip (self st)).
Proof.
  intros Hkey Hek.
  destruct (runs_dispatch w (self st) k depth q st eq_refl)
    as (ext & r & -> & ext1 & ext2 & -> & Hext1 & Hext2 & _).
  exists (ext1 ++ ext2). split; [done|]. intros url h Hin.
  apply elem_of_app in Hin as [Hin|Hin].
  - rewrite Forall_forall in Hext1. apply Hext1 in Hin.
    destruct Hin as (-> & k' & -> & Hk'). split; [done|].
    rewrite Hkey in Hk'. specialize (Hk' (truthy_str_Some ek Hek)).
    congruence.
  - destruct Hext2 as [->|[key ->]].
    + by apply elem_of_nil in Hin.
    + apply list_elem_of_singleton in Hin. discriminate.
Qed.

Lemma dispatches_gets w depth kqs st ek :
  encrypted_api_key (self st) = Some ek → ek ≠ "" →
  ∃ ext, dispatches_state w depth kqs st = advance st ext ∧
    ∀ url h, GET url h ∈ ext →
      url = session_id (urls (self st)) ∧
      h = headers_dict ek (origin_ip (self st)).
Proof.
  revert st. induction kqs as [|[k q] kqs IH]; intros st Hkey Hek.
  { exists []. rewrite advance_nil. split; [done|].
    intros url h Hin. by apply elem_of_nil in Hin. }
  destruct (dispatch_gets w k depth q st ek Hkey Hek) as (ext1 & Hst1 & Hext1).
  unfold dispatches_state in *. simpl. rewrite Hst1.
  destruct (IH (advance st ext1) Hkey Hek) as (ext2 & -> & Hext2).
  exists (ext1 ++ ext2). rewrite advance_app. split; [done|].
  intros url h Hin. apply elem_of_app in Hin as [Hin|Hin]; auto.
Qed.

(** C9: any number of transaction calls on a constructed object, whose
    origin may have been set since, leave every attribute of the object as
    it was, the stored encrypted API key among them; each request for a
    session id they send carries that key, the one construction
    computed. *)
Theorem dispatch_keeps_client (w : World) (path env : string)
    (depth0 t : nat) (tr : list event) (c : Mpesa) (t' : nat)
    (tr' : list event) (depth : nat)
    (kqs : list (kind * gmap string pyval)) (st : state) :
  Mpesa_new w path env depth0 t tr = (Ok c, (t', tr')) →
  encrypted_api_key (self st) = encrypted_api_key c →
  self (dispatches_state w depth kqs st) = self st ∧
  ∃ ek ext,
    encrypted_api_key c = Some ek ∧
    dispatches_state w depth kqs st = advance st ext ∧
    ∀ url h, GET url h ∈ ext →
      url = session_id (urls (self st)) ∧
      h !! "Authorization" = Some ("Bearer " +:+ ek).
Proof.
  intros Hmade Hsame.
  destruct (Mpesa_new_ok _ _ _ _ _ _ _ _ _ Hmade) as (v & ek & -> & Hek).
  simpl in Hsame.
  destruct (dispatches_gets w depth kqs st ek Hsame Hek) as (ext & Hext & Hgets).
  split; [by rewrite Hext|]. exists ek, ext. split_and!; [done..|].
  intros url h Hin. destruct (Hgets url h Hin) as [-> ->].
  split; [done|]. apply headers_dict_entries.
Qed.

Lemma dispatch_keeps_client_witness :
  self (dispatches_state (Demo.world "INS-0") 1000
          [(Status, Demo.status_query); (C2B, Demo.short_query);
           (Status, Demo.status_query)] Demo.start) = Demo.client.
Proof.
  eapply (dispatch_keeps_client (Demo.world "INS-0") "keys.json" "testing"
            1000 0 [] Demo.client 1 [Encrypt "MIICIjANBg" "k3y"] 1000
            _ Demo.start); [vm_compute; reflexivity | reflexivity].
Defined.

(** ** The origin address *)

(** C7: the origin of a new object is the string [*].  Assigning a value
    that is not a string raises [TypeError] and changes nothing.  Assigning
    a string succeeds; from then on, through any calls that do not assign
    it again, the object keeps it, every request sent carries it as
    [Origin], and so does every mapping [default_headers] returns. *)
Theorem origin_address_assignment (w : World) :
  (∀ path env, origin_ip (init_attributes w path env) = "*") ∧
  (∀ path env depth t tr c t' tr',
     Mpesa_new w path env depth t tr = (Ok c, (t', tr')) →
     origin_ip c = "*") ∧
  (∀ v st, is_str v = false →
     set_origin_address v st = (Err TypeError, st)) ∧
  (∀ s st,
     set_origin_address (PStr s) st
       = (Ok tt, {| self := set_origin_ip s (self st);
                    ticks := ticks st; trace := trace st |})) ∧
  (∀ s st depth cls,
     Forall (λ cl, keeps_origin cl = true) cls →
     let st1 := snd (set_origin_address (PStr s) st) in
     let st2 := calls_state w depth cls st1 in
     origin_ip (self st2) = s ∧
     (∃ ext, trace st2 = trace st1 ++ ext ∧ Forall (origin_event s) ext) ∧
     ∀ depth' auth_key h st3,
       default_headers w depth' auth_key st2 = (Ok h, st3) →
       h !! "Origin" = Some s).
Proof.
  split_and!.
  - done.
  - intros path env depth t tr c t' tr' Hmade.
    by destruct (Mpesa_new_ok _ _ _ _ _ _ _ _ _ Hmade) as (v & ek & -> & _).
  - intros v st Hv. by destruct v.
  - done.
  - intros s st depth cls Hcls st1 st2.
    destruct (calls_state_origin w depth cls st1 Hcls) as (Horigin & Hext).
    fold st2 in Horigin, Hext. change (origin_ip (self st1)) with s in *.
    split_and!; [done | done | ].
    intros depth' auth_key h st3 Hheaders.
    destruct (proj1 (session_methods_run w (self st2) depth') auth_key st2
                eq_refl) as (ext & r & Hrun & _ & Hr).
    rewrite Hheaders in Hrun. injection Hrun as <- _.
    destruct (Hr h eq_refl) as (k & -> & _). rewrite Horigin.
    apply headers_dict_entries.
Qed.

Lemma origin_address_assignment_witness :
  set_origin_address (PInt 127) Demo.start = (Err TypeError, Demo.start) ∧
  origin_ip (self (calls_state (Demo.world "INS-0") 1000
                     [CallDispatch Status Demo.status_query;
                      CallSetOriginAddress PNone]
                     (snd (set_origin_address (PStr "10.0.0.1") Demo.start))))
    = "10.0.0.1".
Proof.
  destruct (origin_address_assignment (Demo.world "INS-0"))
    as (_ & _ & Hbad & _ & Hkept).
  split.
  - by apply Hbad.
  - apply Hkept. by repeat constructor.
Defined.

(** * Further properties of the methods *)

(** ** [verify_query] *)

(** X1: [verify_query] returns [True] exactly when every required field is
    a key of the query, and raises otherwise; either way the state is
    untouched.  Keys beyond the required ones never matter: a query that
    passes still passes with more fields. *)
Theorem verify_query_passes_iff (q : gmap string pyval)
    (required : gset string) (st : state) :
  snd (verify_query q required st) = st ∧
  (fst (verify_query q required st) = Ok true ↔ required ⊆ dom q) ∧
  (required ⊈ dom q →
     fst (verify_query q required st) = Err (KeyError (required ∖ dom q))) ∧
  (∀ q', q ⊆ q' → fst (verify_query q required st) = Ok true →
     fst (verify_query q' required st) = Ok true).
Proof.
  rewrite !verify_query_run. simpl.
  assert (Hiff : (if bool_decide (required ∖ dom q = ∅)
                  then Ok true else Err (KeyError (required ∖ dom q)))
                 = Ok true ↔ required ⊆ dom q).
  { rewrite <- missing_nonempty. case_bool_decide as Hempty.
    - done.
    - split; [discriminate | intros Hyes; by destruct Hempty]. }
  split_and!; [done | done | | ].
  - intros Hmiss. rewrite bool_decide_eq_false_2; [done|].
    by rewrite missing_nonempty.
  - intros q' Hsub Hpass. rewrite verify_query_run. simpl.
    rewrite bool_decide_eq_true_2; [done|].
    apply missing_nonempty. apply Hiff in Hpass.
    etrans; [exact Hpass|]. by apply subseteq_dom.
Qed.

(** ** What a transaction method can raise *)


Lemma try_except_authentication {A} (m : M A) (st st' : state) (e : exn) :
  try_except m (λ _, raise AuthenticationError) st = (Err e, st') →
  e = AuthenticationError.
Proof.
  unfold try_except, raise. destruct (m st) as [[a|e'] st1]; congruence.
Qed.

Lemma session_errors w depth st :
  (∀ session e st',
     generate_encrypted_key w (S depth) session st = (Err e, st') →
     e = AuthenticationError) ∧
  (∀ e st', get_session_id w (S depth) st = (Err e, st') →
     e = AuthenticationError) ∧
  (∀ auth_key e st',
     default_headers w (S (S depth)) auth_key st = (Err e, st') →
     e = AuthenticationError).
Proof.
  split_and!.
  - intros session e st'. rewrite generate_encrypted_key_S.
    apply try_except_authentication.
  - intros e st'. rewrite get_session_id_S. apply try_except_authentication.
  - intros auth_key e st'. rewrite default_headers_S.
    destruct (truthy_str auth_key); [done|].
    rewrite generate_encrypted_key_S. unfold mbind, M_bind.
    destruct (try_except _ _ st) as [[key|e'] st1] eqn:Htry; [done|].
    intros [= <- <-]. by eapply try_except_authentication.
Qed.

(** ** The session methods *)

(** X3: [default_headers] and [get_session_id], whatever the object and the
    world, leave the object as it is; the only external calls they make
    are encryptions and GETs to the session endpoint with headers from
    [default_headers] itself, never a POST; and with two frames of stack
    left the only exception they raise is [AuthenticationError]. *)
Theorem session_methods_are_contained (w : World) (depth : nat)
    (st : state) (auth_key : option string) :
  (2 ≤ depth)%nat →
  (∃ ext, snd (default_headers w depth auth_key st) = advance st ext ∧
          Forall (session_event (self st)) ext) ∧
  (∃ ext, snd (get_session_id w depth st) = advance st ext ∧
          Forall (session_event (self st)) ext) ∧
  (∀ e, fst (default_headers w depth auth_key st) = Err e →
        e = AuthenticationError) ∧
  (∀ e, fst (get_session_id w depth st) = Err e → e = AuthenticationError).
Proof.
  intros Hdepth. destruct depth as [|[|depth]]; [lia..|].
  destruct (session_methods_run w (self st) (S (S depth))) as (Hdh & _ & Hgs).
  destruct (Hdh auth_key st eq_refl) as (ext1 & r1 & Hrun1 & Hext1 & _).
  destruct (Hgs st eq_refl) as (ext2 & r2 & Hrun2 & Hext2).
  destruct (session_errors w depth st) as (_ & _ & Herr1).
  destruct (session_errors w (S depth) st) as (_ & Herr2 & _).
  split_and!.
  - exists ext1. by rewrite Hrun1.
  - exists ext2. by rewrite Hrun2.
  - intros e He. eapply (Herr1 auth_key e). rewrite Hrun1 in *.
    simpl in He. by rewrite He.
  - intros e He. eapply (Herr2 e). rewrite Hrun2 in *.
    simpl in He. by rewrite He.
Qed.

Lemma session_methods_are_contained_witness :
  ∃ ext,
    snd (get_session_id (Faults.world (Raises RequestsError) Faults.opened)
           1000 Faults.start) = advance Faults.start ext ∧
    Forall (session_event (self Faults.start)) ext.
Proof.
  assert (Hdepth : (2 ≤ 1000)%nat) by lia.
  by destruct (session_methods_are_contained
                 (Faults.world (Raises RequestsError) Faults.opened)
                 1000 Faults.start None Hdepth) as (_ & Hsent & _).
Defined.

(** ** What a transaction method sends *)

(** X4: whatever the object and the world, and however the call ends, a
    transaction method leaves the object as it is and makes the external
    calls of the session methods followed by at most one POST, which goes
    to the endpoint of the kind with the query as its body; if the method
    returns, the POST was sent. *)
Theorem dispatch_sends_at_most_one_post (w : World) (k : kind) (depth : nat)
    (q : gmap string pyval) (st : state) :
  ∃ ext1 ext2,
    snd (dispatch w k depth q st) = advance st (ext1 ++ ext2) ∧
    Forall (session_event (self st)) ext1 ∧
    (ext2 = [] ∨
     ∃ key, ext2 = [POST (endpoint k (urls (self st))) q
                      (headers_dict key (origin_ip (self st)))]) ∧
    (∀ v, fst (dispatch w k depth q st) = Ok v → ext2 ≠ []).
Proof.
  destruct (runs_dispatch w (self st) k depth q st eq_refl)
    as (ext & r & Hrun & ext1 & ext2 & -> & Hext1 & Hext2 & Hok).
  exists ext1, ext2. rewrite Hrun. done.
Qed.

(** ** An object without a usable stored key *)

Lemma default_headers_0 w auth_key :
  default_headers w 0 auth_key = raise RecursionError.
Proof. reflexivity. Qed.

Lemma generate_encrypted_key_0 w session :
  generate_encrypted_key w 0 session = raise RecursionError.
Proof. reflexivity. Qed.

Lemma get_session_id_0 w : get_session_id w 0 = raise RecursionError.
Proof. reflexivity. Qed.

(** Without a stored key the three methods call each other until the stack
    is used up: each fails and nothing happens. *)
Lemma keyless_methods_fail w depth st :
  truthy_str (encrypted_api_key (self st)) = false →
  (∀ auth_key, truthy_str auth_key = false →
     ∃ e, default_headers w depth auth_key st = (Err e, st)) ∧
  (∃ e, generate_encrypted_key w depth true st = (Err e, st)) ∧
  (∃ e, get_session_id w depth st = (Err e, st)).
Proof.
  intros Hkey. induction depth as [|depth (IHdh & [e1 IHgk] & [e2 IHgs])].
  { rewrite generate_encrypted_key_0, get_session_id_0.
    split_and!; [|by eexists..]. intros auth_key _.
    rewrite default_headers_0. by eexists. }
  split_and!.
  - intros auth_key Hak. rewrite default_headers_S, Hak.
    unfold mbind, M_bind. rewrite IHgk. by eexists.
  - rewrite generate_encrypted_key_S.
    unfold try_except, mbind, M_bind, get_self, raise.
    destruct (auth_keys (self st)) as [keys|]; simpl; [|by eexists].
    unfold subscript. destruct keys as [| | | | | |keys]; try by eexists.
    destruct (keys !! "public_key") as [pub|]; [|by eexists].
    destruct (keys !! "api_key") as [raw|]; [|by eexists].
    unfold mret, M_ret. rewrite IHgs. by eexists.
  - rewrite get_session_id_S.
    unfold try_except, mbind, M_bind, get_self, raise.
    destruct (IHdh (encrypted_api_key (self st)) Hkey) as [e ->].
    by eexists.
Qed.

(** X5: on an object whose stored encrypted key is absent or empty, the
    session methods and the transaction methods fail with
    [AuthenticationError] and make no external call at all: the three
    session methods only call each other until the interpreter stops
    them. *)
Theorem keyless_object_sends_nothing (w : World) (depth : nat) (st : state) :
  truthy_str (encrypted_api_key (self st)) = false →
  (2 ≤ depth)%nat →
  get_session_id w depth st = (Err AuthenticationError, st) ∧
  (∀ auth_key, truthy_str auth_key = false →
     default_headers w depth auth_key st = (Err AuthenticationError, st)) ∧
  (∀ k q, required_fields k ⊆ dom q →
     dispatch w k depth q st = (Err AuthenticationError, st)).
Proof.
  intros Hkey Hdepth. destruct depth as [|[|depth]]; [lia..|].
  destruct (keyless_methods_fail w (S (S depth)) st Hkey)
    as (Hdh & _ & [e2 Hgs]).
  destruct (session_errors w depth st) as (_ & _ & Herr1).
  destruct (session_errors w (S depth) st) as (_ & Herr2 & _).
  assert (Hheaders : ∀ auth_key, truthy_str auth_key = false →
            default_headers w (S (S depth)) auth_key st
              = (Err AuthenticationError, st)).
  { intros auth_key Hak. destruct (Hdh auth_key Hak) as [e1 Hrun].
    by rewrite Hrun, (Herr1 _ _ _ Hrun). }
  split_and!; [by rewrite Hgs, (Herr2 _ _ Hgs) | done | ].
  intros k q Hreq. rewrite dispatch_eq. unfold mbind at 1, M_bind at 1.
  rewrite verify_query_run, bool_decide_eq_true_2 by by apply missing_nonempty.
  unfold post_query, try_except, mbind, M_bind, get_self.
  by rewrite Hheaders.
Qed.

Lemma keyless_object_sends_nothing_witness :
  get_session_id (Demo.world "INS-0") 1000 Faults.keyless
    = (Err AuthenticationError, Faults.keyless).
Proof.
  assert (Hdepth : (2 ≤ 1000)%nat) by lia.
  by destruct (keyless_object_sends_nothing (Demo.world "INS-0") 1000
                 Faults.keyless eq_refl Hdepth) as (Hsession & _).
Defined.

(** ** Returning means the handshake happened *)

Lemma opens_session_headers w depth (auth_key : option string) st ek p s key :
  opens_session w st ek p s key →
  truthy_str auth_key = false →
  default_headers w (S (S (S (S depth)))) auth_key st =
  (Ok (headers_dict key (origin_ip (self st))),
   advance st [GET (session_id (urls (self st)))
                 (headers_dict ek (origin_ip (self st)));
               Encrypt p s]).
Proof.
  intros (Hkey & Hek & keys & resp & raw & code & desc & Hkeys & Hpub & Hraw
          & Hget & Hsid & Hcode & Hdesc & Hok & Hrsa) Hak.
  by eapply default_headers_session.
Qed.

Lemma get_session_id_ok_inv w depth st ek sid st1 :
  encrypted_api_key (self st) = Some ek → ek ≠ "" →
  get_session_id w depth st = (Ok sid, st1) →
  st1 = advance st [GET (session_id (urls (self st)))
                      (headers_dict ek (origin_ip (self st)))] ∧
  ∃ (resp : gmap string pyval) (code desc : pyval),
    http_get w (ticks st) (session_id (urls (self st)))
      (headers_dict ek (origin_ip (self st)))
      = Responds (Some (PDict resp)) ∧
    resp !! "output_SessionID" = Some sid ∧
    resp !! "output_ResponseCode" = Some code ∧
    resp !! "output_ResponseDesc" = Some desc ∧
    code ≠ PStr "INS-989".
Proof.
  intros Hkey Hek. destruct depth as [|[|depth]].
  - by rewrite get_session_id_0.
  - rewrite get_session_id_S.
    unfold try_except, mbind, M_bind, get_self. rewrite Hkey.
    by rewrite default_headers_0.
  - rewrite (get_session_id_run w depth st ek Hkey Hek).
    destruct (http_get w _ _ _) as [e|[v|]] eqn:Hget; try done.
    destruct v as [| | | | | |resp]; try done.
    destruct (resp !! "output_SessionID") as [sid'|] eqn:Hsid; [|done].
    destruct (resp !! "output_ResponseCode") as [code|] eqn:Hcode; [|done].
    destruct (resp !! "output_ResponseDesc") as [desc|] eqn:Hdesc; [|done].
    destruct (eq_str code "INS-989") eqn:Hok; [done|].
    intros [= <- <-]. split; [done|]. exists resp, code, desc.
    split_and!; [done..|]. intros ->. simpl in Hok. discriminate.
Qed.

Lemma rsa_encrypt_ok_inv w pub raw st key st1 :
  rsa_encrypt w pub raw st = (Ok key, st1) →
  ∃ p r, pub = PStr p ∧ raw = PStr r ∧ rsa w (ticks st) p r = Some key ∧
         st1 = advance st [Encrypt p r].
Proof.
  unfold rsa_encrypt. destruct pub as [| | | |p| |]; try done.
  destruct raw as [| | | |r| |]; try done.
  unfold mbind, M_bind. rewrite emit_advance.
  destruct (rsa w (ticks st) p r) as [c|] eqn:Hrsa; [|done].
  intros [= <- <-]. by exists p, r.
Qed.

Lemma default_headers_ok_inv w depth (auth_key : option string) st ek h st1 :
  encrypted_api_key (self st) = Some ek → ek ≠ "" →
  truthy_str auth_key = false →
  default_headers w depth auth_key st = (Ok h, st1) →
  ∃ p s key,
    opens_session w st ek p s key ∧
    h = headers_dict key (origin_ip (self st)) ∧
    st1 = advance st [GET (session_id (urls (self st)))
                        (headers_dict ek (origin_ip (self st)));
                      Encrypt p s].
Proof.
  intros Hkey Hek Hak. destruct depth as [|[|depth]].
  { by rewrite default_headers_0. }
  { rewrite default_headers_S, Hak, generate_encrypted_key_0. done. }
  rewrite default_headers_S, Hak, generate_encrypted_key_S.
  unfold origin_address, subscript, from_option. run_monad.
  destruct (auth_keys (self st)) as [v|] eqn:Hkeys; run_monad; [|done].
  destruct v as [| | | | | |keys]; run_monad; try done.
  destruct (keys !! "public_key") as [pub|] eqn:Hpub; run_monad; [|done].
  destruct (keys !! "api_key") as [raw|] eqn:Hraw; run_monad; [|done].
  destruct (get_session_id w depth st) as [[sid|e] st2] eqn:Hsession;
    run_monad; [|done].
  destruct (get_session_id_ok_inv w depth st ek sid st2 Hkey Hek Hsession)
    as (-> & resp & code & desc & Hget & Hsid & Hcode & Hdesc & Hok).
  destruct (rsa_encrypt w pub sid _) as [[key|e] st3] eqn:Hencrypt;
    run_monad; [|done].
  destruct (rsa_encrypt_ok_inv _ _ _ _ _ _ Hencrypt)
    as (p & s & -> & -> & Hrsa & ->).
  intros [= <- <-]. exists p, s, key. split_and!.
  - split_and!; [done..|]. exists keys, resp, raw, code, desc.
    rewrite ticks_advance in Hrsa.
    replace (ticks st + _) with (S (ticks st)) in Hrsa by (simpl; lia).
    done.
  - done.
  - by rewrite advance_app.
Qed.

(** X6: when [default_headers], given no key or the empty one on an object
    with a usable stored key, returns at all, the handshake took place: the
    session endpoint was asked once with the stored key, answered with a
    session id and a code other than [INS-989], the session id was
    encrypted, and the mapping returned carries the result; conversely that
    handshake makes it return, given four frames of stack. *)
Theorem default_headers_returns_iff_handshake (w : World) (depth : nat)
    (auth_key : option string) (st : state) (ek : string)
    (h : gmap string string) (st1 : state) :
  (4 ≤ depth)%nat →
  encrypted_api_key (self st) = Some ek → ek ≠ "" →
  truthy_str auth_key = false →
  default_headers w depth auth_key st = (Ok h, st1) ↔
  ∃ p s key,
    opens_session w st ek p s key ∧
    h = headers_dict key (origin_ip (self st)) ∧
    st1 = advance st [GET (session_id (urls (self st)))
                        (headers_dict ek (origin_ip (self st)));
                      Encrypt p s].
Proof.
  intros Hdepth Hkey Hek Hak. split.
  - by apply default_headers_ok_inv.
  - intros (p & s & key & Hopens & -> & ->).
    destruct depth as [|[|[|[|depth]]]]; [lia..|].
    by apply opens_session_headers.
Qed.

Lemma default_headers_returns_iff_handshake_witness :
  ∃ p s key,
    opens_session (Demo.world "INS-0") Demo.start "rsa:k3y" p s key ∧
    headers_dict "rsa:5e55" "*" = headers_dict key "*" ∧
    advance Demo.start
      [GET "https://sandbox/getSession/" (headers_dict "rsa:k3y" "*");
       Encrypt "MIICIjANBg" "5e55"]
    = advance Demo.start
        [GET "https://sandbox/getSession/" (headers_dict "rsa:k3y" "*");
         Encrypt p s].
Proof.
  assert (Hdepth : (4 ≤ 1000)%nat) by lia.
  apply (default_headers_returns_iff_handshake (Demo.world "INS-0") 1000 None
           Demo.start "rsa:k3y" _ _ Hdepth eq_refl); [discriminate | done | ].
  vm_compute. reflexivity.
Defined.

(** X7: on an object with a usable stored key, a transaction method returns
    [j] exactly when the query has every required field, the handshake
    takes place, and the endpoint of the kind, asked next, answers with the
    JSON body [j]; the external calls are then the session GET, the
    encryption of the session id and the POST, in this order, and nothing
    else. *)
Theorem dispatch_returns_iff (w : World) (k : kind) (depth : nat)
    (q : gmap string pyval) (st : state) (ek : string) (j : pyval)
    (st1 : state) :
  (4 ≤ depth)%nat →
  encrypted_api_key (self st) = Some ek → ek ≠ "" →
  dispatch w k depth q st = (Ok j, st1) ↔
  required_fields k ⊆ dom q ∧
  ∃ p s key,
    opens_session w st ek p s key ∧
    http_post w (S (S (ticks st))) (endpoint k (urls (self st))) q
      (headers_dict key (origin_ip (self st))) = Responds (Some j) ∧
    st1 = advance st [GET (session_id (urls (self st)))
                        (headers_dict ek (origin_ip (self st)));
                      Encrypt p s;
                      POST (endpoint k (urls (self st))) q
                        (headers_dict key (origin_ip (self st)))].
Proof.
  intros Hdepth Hkey Hek. split.
  - rewrite dispatch_eq. unfold mbind at 1, M_bind at 1.
    rewrite verify_query_run. case_bool_decide as Hreq; [|done].
    apply missing_nonempty in Hreq.
    unfold post_query, requests_post, response_json. run_monad.
    destruct (default_headers w depth (Some "") st) as [[h|e] st2]
      eqn:Hheaders; run_monad; [|by destruct e].
    destruct (default_headers_ok_inv w depth (Some "") st ek h st2
                Hkey Hek eq_refl Hheaders) as (p & s & key & Hopens & -> & ->).
    rewrite emit_advance. run_monad.
    replace (ticks st + _) with (S (S (ticks st))) by (simpl; lia).
    destruct (http_post w _ _ _ _) as [e|[v|]] eqn:Hpost; run_monad;
      [by destruct e | | done].
    intros [= <- <-]. split; [done|]. exists p, s, key.
    split_and!; [done | done | ]. unfold advance. simpl.
    by rewrite <- !(assoc_L (++)), <- !Nat.add_assoc.
  - intros (Hreq & p & s & key & Hopens & Hpost & ->).
    destruct depth as [|[|[|[|depth]]]]; [lia..|].
    rewrite (dispatch_after_headers w k _ q st _ _ j Hreq
               (opens_session_headers w depth (Some "") st ek p s key
                  Hopens eq_refl)).
    + by rewrite advance_app.
    + rewrite ticks_advance.
      by replace (ticks st + _) with (S (S (ticks st))) by (simpl; lia).
Qed.

Lemma dispatch_returns_iff_witness :
  required_fields Status ⊆ dom Demo.status_query ∧
  ∃ p s key,
    opens_session (Demo.world "INS-0") Demo.start "rsa:k3y" p s key ∧
    http_post (Demo.world "INS-0") (S (S (ticks Demo.start)))
      (endpoint Status (urls (self Demo.start))) Demo.status_query
      (headers_dict key (origin_ip (self Demo.start)))
      = Responds (Some Demo.receipt) ∧
    advance Demo.start
      [GET "https://sandbox/getSession/" (headers_dict "rsa:k3y" "*");
       Encrypt "MIICIjANBg" "5e55";
       POST "https://sandbox/queryTransactionStatus/" Demo.status_query
         (headers_dict "rsa:5e55" "*")]
    = advance Demo.start
        [GET (session_id (urls (self Demo.start)))
           (headers_dict "rsa:k3y" (origin_ip (self Demo.start)));
         Encrypt p s;
         POST (endpoint Status (urls (self Demo.start))) Demo.status_query
           (headers_dict key (origin_ip (self Demo.start)))].
Proof.
  assert (Hdepth : (4 ≤ 1000)%nat) by lia.
  apply (dispatch_returns_iff (Demo.world "INS-0") Status 1000
           Demo.status_query Demo.start "rsa:k3y" Demo.receipt _ Hdepth
           eq_refl); [discriminate|].
  vm_compute. reflexivity.
Defined.

(** ** Failures of a transaction *)

(** X8: once the handshake has taken place for a query with every required
    field, the POST is sent, and what the transport does decides the
    exception: [requests.ConnectTimeout] and [requests.ConnectionError]
    become [ConnectionError], any other exception of the transport comes
    out as it is, and a body that is not JSON comes out as the decoding
    error of [Response.json]. *)
Theorem dispatch_transport_failures (w : World) (k : kind) (depth : nat)
    (q : gmap string pyval) (st : state) (ek p s key : string) :
  (4 ≤ depth)%nat →
  required_fields k ⊆ dom q →
  opens_session w st ek p s key →
  let headers := headers_dict key (origin_ip (self st)) in
  let url := endpoint k (urls (self st)) in
  let answer := http_post w (S (S (ticks st))) url q headers in
  let after := advance st [GET (session_id (urls (self st)))
                             (headers_dict ek (origin_ip (self st)));
                           Encrypt p s; POST url q headers] in
  (answer = Raises RequestsConnectTimeout ∨
   answer = Raises RequestsConnectionError →
   dispatch w k depth q st = (Err ConnectionError, after)) ∧
  (∀ e, answer = Raises e →
     e ≠ RequestsConnectTimeout → e ≠ RequestsConnectionError →
     dispatch w k depth q st = (Err e, after)) ∧
  (answer = Responds None →
   dispatch w k depth q st = (Err JSONDecodeError, after)).
Proof.
  intros Hdepth Hreq Hopens headers url answer after.
  destruct depth as [|[|[|[|depth]]]]; [lia..|].
  pose proof (opens_session_headers w depth (Some "") st ek p s key Hopens
                eq_refl) as Hheaders.
  assert (Hrun : dispatch w k (S (S (S (S depth)))) q st =
    (match answer with
     | Raises RequestsConnectTimeout | Raises RequestsConnectionError =>
         Err ConnectionError
     | Raises e => Err e
     | Responds None => Err JSONDecodeError
     | Responds (Some v) => Ok v
     end, after)).
  { rewrite dispatch_eq. unfold mbind at 1, M_bind at 1.
    rewrite verify_query_run, bool_decide_eq_true_2
      by by apply missing_nonempty.
    unfold post_query, try_except, mbind at 1, M_bind at 1, get_self at 1.
    unfold mbind at 1, M_bind at 1. rewrite Hheaders.
    unfold mbind at 1, M_bind at 1, requests_post, mbind at 1, M_bind at 1.
    rewrite emit_advance, advance_app, ticks_advance.
    replace (ticks st + _) with (S (S (ticks st))) by (simpl; lia).
    change ((endpoint k ∘ urls) (self st)) with url.
    fold headers. fold answer. fold after.
    destruct answer as [e|[v|]]; [by destruct e | done | done]. }
  rewrite Hrun. split_and!.
  - by intros [-> | ->].
  - intros e -> Hne1 Hne2. by destruct e.
  - by intros ->.
Qed.

Lemma dispatch_transport_failures_witness :
  dispatch (Faults.world Faults.opened (Raises RequestsConnectionError)) C2B
    1000 (Demo.status_query ∪ Demo.short_query
          ∪ {[ "input_Currency" := PStr "TZS";
               "input_CustomerMSISDN" := PStr "000000000001";
               "input_TransactionReference" := PStr "T1234C";
               "input_PurchasedItemsDesc" := PStr "Shoes" ]})
    Faults.start
  = (Err ConnectionError,
     advance Faults.start
       [GET "https://sandbox/getSession/" (headers_dict "0:k3y" "*");
        Encrypt "MIICIjANBg" "5e55";
        POST "https://sandbox/c2bPayment/singleStage/"
          (Demo.status_query ∪ Demo.short_query
           ∪ {[ "input_Currency" := PStr "TZS";
                "input_CustomerMSISDN" := PStr "000000000001";
                "input_TransactionReference" := PStr "T1234C";
                "input_PurchasedItemsDesc" := PStr "Shoes" ]})
          (headers_dict "2:5e55" "*")]).
Proof.
  assert (Hdepth : (4 ≤ 1000)%nat) by lia.
  assert (Hreq : required_fields C2B ⊆
            dom (Demo.status_query ∪ Demo.short_query
                 ∪ {[ "input_Currency" := PStr "TZS";
                      "input_CustomerMSISDN" := PStr "000000000001";
                      "input_TransactionReference" := PStr "T1234C";
                      "input_PurchasedItemsDesc" := PStr "Shoes" ]})).
  { apply missing_nonempty. vm_compute. reflexivity. }
  assert (Hopens : opens_session
            (Faults.world Faults.opened (Raises RequestsConnectionError))
            Faults.start "0:k3y" "MIICIjANBg" "5e55" "2:5e55").
  { split_and!; [reflexivity | discriminate | ].
    eexists _, _, _, _, _.
    split_and!; [reflexivity | vm_compute; reflexivity
                | vm_compute; reflexivity | reflexivity
                | vm_compute; reflexivity | vm_compute; reflexivity
                | vm_compute; reflexivity | discriminate | reflexivity]. }
  destruct (dispatch_transport_failures
              (Faults.world Faults.opened (Raises RequestsConnectionError))
              C2B 1000 _ Faults.start "0:k3y" "MIICIjANBg" "5e55" "2:5e55"
              Hdepth Hreq Hopens) as (Hconnection & _).
  apply Hconnection. by right.
Defined.

(** X9: when the handshake does not take place, for whatever reason (the
    session request fails in the transport, the answer is refused or
    incomplete, the session id cannot be encrypted), a transaction method
    called with every required field fails with [AuthenticationError], not
    with [ConnectionError], and sends no POST. *)
Theorem dispatch_without_handshake (w : World) (k : kind) (depth : nat)
    (q : gmap string pyval) (st : state) (ek : string) :
  (2 ≤ depth)%nat →
  required_fields k ⊆ dom q →
  encrypted_api_key (self st) = Some ek → ek ≠ "" →
  (∀ p s key, ¬ opens_session w st ek p s key) →
  ∃ ext,
    dispatch w k depth q st = (Err AuthenticationError, advance st ext) ∧
    Forall (session_event (self st)) ext ∧
    Forall (λ ev, is_post ev = false) ext.
Proof.
  intros Hdepth Hreq Hkey Hek Hnone.
  destruct depth as [|[|depth]]; [lia..|].
  destruct (proj1 (session_methods_run w (self st) (S (S depth))) (Some "")
              st eq_refl) as (ext & r & Hrun & Hext & _).
  exists ext. split_and!; [ | done | ].
  - rewrite dispatch_eq. unfold mbind at 1, M_bind at 1.
    rewrite verify_query_run, bool_decide_eq_true_2
      by by apply missing_nonempty.
    unfold post_query, try_except, mbind at 1, M_bind at 1, get_self at 1.
    unfold mbind at 1, M_bind at 1.
    destruct r as [h|e].
    + destruct (default_headers_ok_inv w _ (Some "") st ek h _ Hkey Hek
                  eq_refl Hrun) as (p & s & key & Hopens & _).
      by destruct (Hnone p s key).
    + rewrite Hrun.
      by rewrite (proj2 (proj2 (session_errors w depth st)) _ _ _ Hrun).
  - eapply Forall_impl; [exact Hext|]. by intros [url h|url body h|p s].
Qed.

Lemma dispatch_without_handshake_witness :
  ∃ ext,
    dispatch (Faults.world (Raises RequestsConnectionError) Faults.opened)
      Status 1000 Demo.status_query Faults.start
      = (Err AuthenticationError, advance Faults.start ext) ∧
    Forall (session_event (self Faults.start)) ext ∧
    Forall (λ ev, is_post ev = false) ext.
Proof.
  assert (Hdepth : (2 ≤ 1000)%nat) by lia.
  apply (dispatch_without_handshake
           (Faults.world (Raises RequestsConnectionError) Faults.opened)
           Status 1000 Demo.status_query Faults.start "0:k3y" Hdepth).
  - apply missing_nonempty. vm_compute. reflexivity.
  - reflexivity.
  - discriminate.
  - intros p s key (_ & _ & keys & resp & raw & code & desc & _ & _ & _
                    & Hget & _).
    discriminate Hget.
Defined.

(** ** Construction and the key store *)

(** The one call [__generate_encrypted_key] makes for the API key. *)
Lemma generate_api_key_events w depth st v :
  auth_keys (self st) = Some v →
  (has_string_keys v = false →
     ∃ e, generate_encrypted_key w depth false st = (Err e, st)) ∧
  (∀ keys p r, v = PDict keys →
     keys !! "public_key" = Some (PStr p) →
     keys !! "api_key" = Some (PStr r) →
     generate_encrypted_key w (S depth) false st =
     (match rsa w (ticks st) p r with
      | Some ek => Ok ek
      | None => Err AuthenticationError
      end, advance st [Encrypt p r])).
Proof.
  intros Hkeys. split.
  - intros Hshape. destruct depth as [|depth].
    { rewrite generate_encrypted_key_0. by eexists. }
    rewrite generate_encrypted_key_S.
    unfold subscript, from_option, rsa_encrypt. run_monad. rewrite Hkeys.
    destruct v as [| | | | | |keys]; run_monad; try by eexists.
    simpl in Hshape.
    destruct (keys !! "public_key") as [pub|]; run_monad; [|by eexists].
    destruct (keys !! "api_key") as [raw|]; run_monad; [|by eexists].
    destruct pub, raw; by exists AuthenticationError.
  - intros keys p r -> Hpub Hraw. rewrite generate_encrypted_key_S.
    unfold try_except, mbind at 1, M_bind at 1, get_self at 1. rewrite Hkeys.
    unfold from_option, mbind at 1, M_bind at 1, mret at 1, M_ret at 1.
    unfold mbind at 1, M_bind at 1, subscript at 1. rewrite Hpub.
    unfold mret at 1, M_ret at 1, mbind at 1, M_bind at 1, subscript.
    rewrite Hraw.
    unfold mret at 1, M_ret at 1, mbind at 1, M_bind at 1, mret at 1,
      M_ret at 1, rsa_encrypt, mbind, M_bind.
    rewrite emit_advance. by destruct (rsa w (ticks st) p r).
Qed.






(** ** Reading [authenticated] again *)

Lemma falsy_subscript v key :
  truthy v = false → ∃ e, subscript v key = raise e.
Proof.
  destruct v as [| | | | | |d]; simpl; try by eexists.
  intros Hempty. apply negb_false_iff, bool_decide_eq_true in Hempty as ->.
  rewrite lookup_empty. by eexists.
Qed.

Lemma falsy_keys_fail w depth session st v :
  auth_keys (self st) = Some v → truthy v = false →
  generate_encrypted_key w (S depth) session st
    = (Err AuthenticationError, st).
Proof.
  intros Hkeys Hfalsy. rewrite generate_encrypted_key_S.
  unfold try_except, mbind at 1, M_bind at 1, get_self at 1. rewrite Hkeys.
  unfold from_option, mbind at 1, M_bind at 1, mret at 1, M_ret at 1.
  destruct (falsy_subscript v "public_key" Hfalsy) as [e ->].
  by unfold mbind, M_bind, raise.
Qed.

Lemma string_keys_truthy keys (p : string) :
  keys !! "public_key" = Some (PStr p) → truthy (PDict keys) = true.
Proof.
  intros Hpub. simpl. apply negb_true_iff, bool_decide_eq_false.
  intros ->. by rewrite lookup_empty in Hpub.
Qed.

(** X12: reading [authenticated] on a live object loads the key store and
    encrypts the API key again.  With the key store in place it returns
    [True], having replaced the stored key store and the stored encrypted
    key by the new ones and touched nothing else; no request is sent; and
    the next session request carries the new key. *)
Theorem authenticated_again_replaces_key (w : World) (depth : nat)
    (st : state) (keys : gmap string pyval) (p r ek : string) :
  (1 ≤ depth)%nat →
  auth_path (self st) ∈ listdir w →
  open_json w (auth_path (self st)) = Loaded (PDict keys) →
  keys !! "public_key" = Some (PStr p) →
  keys !! "api_key" = Some (PStr r) →
  rsa w (ticks st) p r = Some ek → ek ≠ "" →
  let st' := {| self := {| auth_path := auth_path (self st);
                           auth_keys := Some (PDict keys);
                           encrypted_api_key := Some ek;
                           origin_ip := origin_ip (self st);
                           urls := urls (self st) |};
                ticks := S (ticks st);
                trace := trace st ++ [Encrypt p r] |} in
  authenticated w depth st = (Ok true, st') ∧
  ∀ depth', (2 ≤ depth')%nat →
    snd (get_session_id w depth' st')
      = advance st' [GET (session_id (urls (self st)))
                       (headers_dict ek (origin_ip (self st)))].
Proof.
  intros Hdepth Hin Hopen Hpub Hraw Hrsa Hek st'.
  destruct depth as [|depth]; [lia|]. split.
  - unfold authenticated, load_keys. run_monad.
    rewrite bool_decide_eq_true_2 by done. rewrite Hopen. run_monad.
    rewrite (string_keys_truthy keys p Hpub). run_monad.
    match goal with
    | |- context [generate_encrypted_key w (S depth) false ?s] =>
        destruct (generate_api_key_events w depth s (PDict keys) eq_refl)
          as [_ Hgood]
    end.
    rewrite (Hgood keys p r eq_refl Hpub Hraw). run_monad. rewrite Hrsa.
    run_monad. unfold truthy_str.
    apply String.eqb_neq in Hek. rewrite Hek. run_monad.
    unfold st'. by rewrite Nat.add_1_r.
  - intros depth' Hdepth'. destruct depth' as [|[|depth']]; [lia..|].
    by rewrite (get_session_id_run w depth' st' ek eq_refl Hek).
Qed.

Lemma authenticated_again_replaces_key_witness :
  fst (authenticated (Faults.world Faults.opened Faults.opened) 1000
         Faults.start) = Ok true ∧
  encrypted_api_key (self Faults.start) = Some "0:k3y" ∧
  encrypted_api_key
    (self (snd (authenticated (Faults.world Faults.opened Faults.opened)
                  1000 Faults.start))) = Some "1:k3y".
Proof.
  assert (Hdepth : (1 ≤ 1000)%nat) by lia.
  assert (Hin : auth_path (self Faults.start) ∈
            listdir (Faults.world Faults.opened Faults.opened)).
  { simpl. set_solver. }
  destruct (authenticated_again_replaces_key
              (Faults.world Faults.opened Faults.opened) 1000 Faults.start
              {[ "public_key" := PStr "MIICIjANBg"; "api_key" := PStr "k3y" ]}
              "MIICIjANBg" "k3y" "1:k3y" Hdepth Hin)
    as [Hagain _];
    [reflexivity | vm_compute; reflexivity | vm_compute; reflexivity
    | reflexivity | discriminate | ].
  rewrite Hagain. split_and!; reflexivity.
Defined.

(** X13: reading [authenticated] when the key store is gone or unreadable
    raises and leaves the object as it was.  When the key store is there
    but empty, it returns [False] and has overwritten the stored key store
    with the empty value: from then on every transaction method fails with
    [AuthenticationError] before any request is sent, although the stored
    encrypted key is still the old one. *)
Theorem authenticated_again_on_bad_store (w : World) (depth : nat)
    (st : state) :
  (auth_path (self st) ∉ listdir w →
     authenticated w depth st = (Err FileNotFoundError, st)) ∧
  (auth_path (self st) ∈ listdir w →
     open_json w (auth_path (self st)) = LoadRaises FileNotFoundError →
     authenticated w depth st = (Err FileNotFoundError, st)) ∧
  (auth_path (self st) ∈ listdir w →
     ∀ e, open_json w (auth_path (self st)) = LoadRaises e →
     e ≠ FileNotFoundError →
     authenticated w depth st = (Err LoadingKeyError, st)) ∧
  (auth_path (self st) ∈ listdir w →
     ∀ v, open_json w (auth_path (self st)) = Loaded v → truthy v = false →
     let st' := {| self := set_auth_keys v (self st);
                   ticks := ticks st; trace := trace st |} in
     authenticated w depth st = (Ok false, st') ∧
     encrypted_api_key (self st') = encrypted_api_key (self st) ∧
     ∀ depth' k q, (2 ≤ depth')%nat → required_fields k ⊆ dom q →
       dispatch w k depth' q st' = (Err AuthenticationError, st')).
Proof.
  split_and!.
  - intros Hout. unfold authenticated. run_monad.
    by rewrite bool_decide_eq_false_2.
  - intros Hin Hopen. unfold authenticated, load_keys. run_monad.
    rewrite bool_decide_eq_true_2 by done. by rewrite Hopen.
  - intros Hin e Hopen Hne. unfold authenticated, load_keys. run_monad.
    rewrite bool_decide_eq_true_2 by done. rewrite Hopen. by destruct e.
  - intros Hin v Hopen Hfalsy st'. split_and!.
    + unfold authenticated, load_keys. run_monad.
      rewrite bool_decide_eq_true_2 by done. rewrite Hopen. run_monad.
      by rewrite Hfalsy.
    + done.
    + intros depth' k q Hdepth' Hreq.
      destruct depth' as [|[|depth']]; [lia..|].
      rewrite dispatch_eq. unfold mbind at 1, M_bind at 1.
      rewrite verify_query_run, bool_decide_eq_true_2
        by by apply missing_nonempty.
      unfold post_query, try_except, mbind at 1, M_bind at 1, get_self at 1.
      unfold mbind at 1, M_bind at 1. rewrite default_headers_S.
      simpl truthy_str. unfold mbind at 1, M_bind at 1.
      by rewrite (falsy_keys_fail w depth' true st' v eq_refl Hfalsy).
Qed.

Lemma authenticated_again_on_bad_store_witness :
  authenticated Faults.emptied 1000 Faults.start
    = (Ok false,
       {| self := set_auth_keys (PDict ∅) (self Faults.start);
          ticks := 1; trace := [Encrypt "MIICIjANBg" "k3y"] |}) ∧
  dispatch Faults.emptied Status 1000 Demo.status_query
    {| self := set_auth_keys (PDict ∅) (self Faults.start);
       ticks := 1; trace := [Encrypt "MIICIjANBg" "k3y"] |}
  = (Err AuthenticationError,
     {| self := set_auth_keys (PDict ∅) (self Faults.start);
        ticks := 1; trace := [Encrypt "MIICIjANBg" "k3y"] |}).
Proof.
  assert (Hin : auth_path (self Faults.start) ∈ listdir Faults.emptied).
  { simpl. set_solver. }
  destruct (authenticated_again_on_bad_store Faults.emptied 1000 Faults.start)
    as (_ & _ & _ & Hempty).
  destruct (Hempty Hin (PDict ∅) eq_refl eq_refl) as (Hfalse & _ & Hfails).
  split; [exact Hfalse|]. apply Hfails; [lia|].
  apply missing_nonempty. vm_compute. reflexivity.
Defined.
